(** * Examen: analysis scripts over a video-consumption dataset

    A shallow embedding of the aggregation code of the six
    [dataset_exam_*.py] scripts, and the properties their specification
    states about them.

    Conventions of the embedding:
    - a spreadsheet cell is either missing ([NaN]) or holds a value, kept
      as the text that [str()] gives for it;
    - integer counts are [Z]; the float64 values of the percentage table are
      exact rationals [Q], so a result about them is a result about the
      real-number computation the floats approximate;
    - [print] and the spreadsheet writer are events of a trace;
    - a Python exception is a value of [excepcion], propagated through a
      small error monad up to the [try]/[except] of each script. *)

From Stdlib Require Import ZArith QArith Qround Qabs Lia Lqa Ascii.
From Stdlib Require String.
From stdpp Require Import gmap strings list sorting pretty.

Local Open Scope Z_scope.

(** ** Strings *)

(** [str.isspace] on one-byte characters: TAB..CR, FS..US and the space.
    Whitespace of several bytes is left in place by [strip] below. *)
Definition es_espacio (c : ascii) : bool :=
  let n := nat_of_ascii c in
  ((9 <=? n)%nat && (n <=? 13)%nat) || ((28 <=? n)%nat && (n <=? 32)%nat).

Fixpoint lstrip (s : string) : string :=
  match s with
  | EmptyString => EmptyString
  | String c s' => if es_espacio c then lstrip s' else s
  end.

Fixpoint rstrip (s : string) : string :=
  match s with
  | EmptyString => EmptyString
  | String c s' =>
      match rstrip s' with
      | EmptyString => if es_espacio c then EmptyString else String c EmptyString
      | r => String c r
      end
  end.

(** [str.strip()] *)
Definition strip (s : string) : string := rstrip (lstrip s).

Definition primero (s : string) : option ascii :=
  match s with
  | EmptyString => None
  | String c _ => Some c
  end.

Fixpoint ultimo (s : string) : option ascii :=
  match s with
  | EmptyString => None
  | String c EmptyString => Some c
  | String _ s' => ultimo s'
  end.

(** A string with no whitespace at either end. *)
Definition recortada (s : string) : Prop :=
  (∀ c, primero s = Some c → es_espacio c = false) ∧
  (∀ c, ultimo s = Some c → es_espacio c = false).

(** Order of the labels of an index: the byte-wise lexicographic order. *)
Definition cadena_le (a b : string) : Prop := String.leb a b = true.

#[global] Instance cadena_le_dec a b : Decision (cadena_le a b).
Proof. unfold cadena_le. apply _. Defined.

(** ** Data frames *)

Inductive celda : Type :=
| NaN
| Texto (s : string).

#[global] Instance celda_eq_dec : EqDecision celda.
Proof. solve_decision. Defined.

Record DataFrame : Type := mkDataFrame {
  columns : list string;
  filas : list (list celda)
}.

(** [fila[col]] for a row of [df]; a short row reads as missing. *)
Definition valor (df : DataFrame) (fila : list celda) (col : string) : celda :=
  match list_find (λ c, c = col) (columns df) with
  | Some (i, _) => default NaN (fila !! i)
  | None => NaN
  end.

(** [df[[a, b]].copy()] *)
Definition seleccionar2 (df : DataFrame) (a b : string) : list (celda * celda) :=
  (λ fila, (valor df fila a, valor df fila b)) <$> filas df.

(** [.astype(str)] on one cell: a missing value becomes the text [nan]. *)
Definition astype_str (c : celda) : string :=
  match c with
  | NaN => "nan"
  | Texto s => s
  end.

(** [col.astype(str).str.strip()] on one cell *)
Definition astype_str_strip (c : celda) : celda := Texto (strip (astype_str c)).

Definition es_nan (c : celda) : bool :=
  match c with
  | NaN => true
  | Texto _ => false
  end.

(** [df.dropna()] on a two-column frame *)
Definition dropna2 (l : list (celda * celda)) : list (celda * celda) :=
  filter (λ p, es_nan p.1 = false ∧ es_nan p.2 = false) l.

(** [df[(df[col] != '') & (df[col] != 'nan')]]; a missing value differs from
    both texts and is kept by the mask. *)
Definition no_vacia (c : celda) : Prop := c ≠ Texto EmptyString ∧ c ≠ Texto "nan".

#[global] Instance no_vacia_dec c : Decision (no_vacia c).
Proof. unfold no_vacia. apply _. Defined.

(** ** Tables *)

Record Tabla (A : Type) : Type := mkTabla {
  t_index : list string;
  t_columns : list string;
  t_values : list (list A)
}.
Arguments mkTabla {A} _ _ _.
Arguments t_index {A} _.
Arguments t_columns {A} _.
Arguments t_values {A} _.

(** [t.loc[label]]: the row of the first matching label. *)
Definition loc {A} (t : Tabla A) (label : string) : option (list A) :=
  snd <$> head (filter (λ p, p.1 = label) (zip (t_index t) (t_values t))).

(** The distinct labels of a column, in sorted order. *)
Definition unicos_ordenados (l : list string) : list string :=
  merge_sort cadena_le (remove_dups l).

Definition suma (l : list Z) : Z := foldr Z.add 0 l.

(** Number of records equal to the pair (a, b). *)
Definition contar (a b : string) (regs : list (string * string)) : Z :=
  Z.of_nat (length (filter (λ p, p = (a, b)) regs)).

(** [pd.crosstab(df[A], df[B])] *)
Definition crosstab (regs : list (string * string)) : Tabla Z :=
  let idx := unicos_ordenados regs.*1 in
  let cols := unicos_ordenados regs.*2 in
  mkTabla idx cols ((λ a, (λ b, contar a b regs) <$> cols) <$> idx).

(** [t.sum(axis=1)] *)
Definition sum_axis1 (t : Tabla Z) : list Z := suma <$> t_values t.

(** Sum of all the entries of a table. *)
Definition suma_tabla (t : Tabla Z) : Z := suma (sum_axis1 t).

(** ** Percentages *)

(** [numpy.rint]: the nearest integer, a tie going to the even one. *)
Definition rint (q : Q) : Z :=
  let f := Qfloor q in
  match (q - inject_Z f ?= 1 # 2)%Q with
  | Lt => f
  | Gt => f + 1
  | Eq => if Z.even f then f else f + 1
  end.

(** [round(x, d)]: scale by [10^d], round to an integer, scale back. *)
Definition redondear (d : nat) (q : Q) : Q :=
  (inject_Z (rint (q * inject_Z (10 ^ Z.of_nat d))) / inject_Z (10 ^ Z.of_nat d))%Q.

(** [t.div(d, axis=0)]: every row divided by its entry of [d].  A division
    by zero gives 0 here (inf or nan in numpy); no row of a contingency
    table has a zero total, see [sum_axis1_crosstab_pos]. *)
Definition div_axis0 (t : Tabla Z) (d : list Z) : Tabla Q :=
  mkTabla (t_index t) (t_columns t)
    (zip_with (λ fila total, (λ c, inject_Z c / inject_Z total)%Q <$> fila)
       (t_values t) d).

(** [t * k] *)
Definition mul_escalar (t : Tabla Q) (k : Q) : Tabla Q :=
  mkTabla (t_index t) (t_columns t)
    ((λ fila : list Q, (λ x, x * k)%Q <$> fila) <$> t_values t).

(** [t.round(d)] *)
Definition round_tabla (d : nat) (t : Tabla Q) : Tabla Q :=
  mkTabla (t_index t) (t_columns t)
    ((λ fila : list Q, redondear d <$> fila) <$> t_values t).

Definition sumaQ (l : list Q) : Q := foldr Qplus 0%Q l.

(** ** Ranking *)

(** A series: labels with their values, in the order of the index. *)
Abbreviation Serie := (list (string * Z)).

Definition serie_de (t : Tabla Z) (label : string) : Serie :=
  zip (t_columns t) (default [] (loc t label)).

Fixpoint insertar_desc (x : string * Z) (l : Serie) : Serie :=
  match l with
  | [] => [x]
  | y :: l' => if x.2 <? y.2 then y :: insertar_desc x l' else x :: l
  end.

(** Values in descending order, equal values in the order of the series. *)
Definition ordenar_desc (s : Serie) : Serie := foldr insertar_desc [] s.

(** [s.nlargest(n)], with its default [keep='first']. *)
Definition nlargest (n : nat) (s : Serie) : Serie := take n (ordenar_desc s).

(** [s.max()] and [s.idxmax()]: the first label holding the maximum. *)
Definition maximo (l : list Z) : Z :=
  match l with
  | [] => 0
  | x :: l' => foldl Z.max x l'
  end.

Definition idxmax (s : Serie) : option string :=
  fst <$> head (filter (λ p, p.2 = maximo s.*2) s).

(** ** Diversity *)

Inductive nivel : Type :=
| Alta_Diversidad
| Media_Diversidad
| Baja_Diversidad.

#[global] Instance nivel_eq_dec : EqDecision nivel.
Proof. solve_decision. Defined.

(** Severity of a tier: High < Medium < Low. *)
Definition severidad (n : nivel) : nat :=
  match n with
  | Alta_Diversidad => 0
  | Media_Diversidad => 1
  | Baja_Diversidad => 2
  end.

(** [pd.cut(x, bins, labels)] with the defaults [right=True] and
    [include_lowest=False]: the label of the interval (a, b] that holds [x],
    and no label (NaN) outside every interval. *)
Fixpoint cut {L : Type} (bins : list Q) (labels : list L) (x : Q) : option L :=
  match bins, labels with
  | a :: (b :: _) as bins', l :: labels' =>
      if negb (Qle_bool x a) && Qle_bool x b then Some l
      else cut bins' labels' x
  | _, _ => None
  end.

(** The sum of the squares of the percentages (lines 108-109). *)
Definition calcular_hhi (porcentajes : list Q) : Q :=
  sumaQ ((λ p, p ^ 2)%Q <$> porcentajes).

(** The tier of a concentration index (lines 116-118). *)
Definition nivel_diversidad (indice : Q) : option nivel :=
  cut [0; 1500; 2500; 10000]%Q
      [Alta_Diversidad; Media_Diversidad; Baja_Diversidad] indice.

(** ** Effects: console, files and exceptions *)

Inductive excepcion : Type :=
| ZeroDivisionError
| KeyError (clave : string).

(** What a script prints.  The lines of a report are kept as the name of
    the section and the numbers it shows, not as formatted text. *)
Inductive mensaje : Type :=
| ArchivoNoExiste (archivo : string)
| HojaNoEncontrada
| ErrorLectura
| ColumnaNoEncontrada (columna : string)
| ColumnasDisponibles (cols : list string)
| Informe (seccion : string) (datos : list Z)
| Porcentaje (etiqueta : string) (valor : Q)
| ArchivoGenerado (archivo : string)
| ErrorInesperado (e : excepcion).

Inductive evento : Type :=
| Print (m : mensaje)
| ExcelWriter (archivo : string) (hojas : list string)
| to_csv (archivo : string) (filas_csv : list (string * Z * bool)).

(** A computation: the events so far, and an exception or a value. *)
Definition Efecto (A : Type) : Type := list evento * (excepcion + A).

#[global] Instance efecto_ret : MRet Efecto := λ A x, ([], inr x).

#[global] Instance efecto_bind : MBind Efecto := λ A B f m,
  match m with
  | (tr, inl e) => (tr, inl e)
  | (tr, inr x) => let '(tr', r) := f x in (tr ++ tr', r)
  end.

Definition print (m : mensaje) : Efecto () := ([Print m], inr ()).

Definition emitir (e : evento) : Efecto () := ([e], inr ()).

Definition raise {A} (e : excepcion) : Efecto A := ([], inl e).

(** [try: m  except Exception as e: h e] *)
Definition try_except {A} (m : Efecto A) (h : excepcion → Efecto A) : Efecto A :=
  match m with
  | (tr, inl e) => let '(tr', r) := h e in (tr ++ tr', r)
  | (tr, inr x) => (tr, inr x)
  end.

(** The quotient [a / b] of two Python integers. *)
Definition div_python (a b : Z) : Efecto Q :=
  if decide (b = 0) then raise ZeroDivisionError
  else mret (inject_Z a / inject_Z b)%Q.

(** A workbook: its sheets, by name, in order.  A file system: the
    workbooks that exist, by path. *)
Definition Libro : Type := list (string * DataFrame).
Definition SistemaArchivos : Type := string → option Libro.

(** The sheet [Dataset], or else the second sheet of the workbook; the
    same lines open every script (lines 26-36 of the region script). *)
Definition leer_hoja (libro : Libro) : Efecto (option DataFrame) :=
  match snd <$> head (filter (λ h, h.1 = "Dataset") libro) with
  | Some df => mret (Some df)
  | None =>
      match libro !! 1%nat with
      | Some (_, df) => print HojaNoEncontrada;; mret (Some df)
      | None => print ErrorLectura;; mret None
      end
  end.

(** The first required column that the sheet lacks. *)
Definition columna_faltante (requeridas : list string) (df : DataFrame)
  : option string :=
  snd <$> list_find (λ c, c ∉ columns df) requeridas.

(** [df[col]] *)
Definition columna (df : DataFrame) (col : string) : list celda :=
  (λ fila, valor df fila col) <$> filas df.

(** [sep.join(l)] *)
Fixpoint join (sep : string) (l : list string) : string :=
  match l with
  | [] => EmptyString
  | [x] => x
  | x :: l' => x +:+ sep +:+ join sep l'
  end.

(** ** Region and genre ([dataset_exam_region_genre_relation.py]) *)

Module RegionGenero.

Definition columnas_requeridas : list string := ["REGION"; "GENRE"].

(** Cleaning, lines 47-52. *)
Definition df_clean_celdas (df : DataFrame) : list (celda * celda) :=
  let df_clean := seleccionar2 df "REGION" "GENRE" in
  let df_clean := (λ p, (astype_str_strip p.1, p.2)) <$> df_clean in
  let df_clean := (λ p, (p.1, astype_str_strip p.2)) <$> df_clean in
  let df_clean := dropna2 df_clean in
  let df_clean := filter (λ p, no_vacia p.1) df_clean in
  let df_clean := filter (λ p, no_vacia p.2) df_clean in
  df_clean.

(** The cleaned records, as pairs (REGION, GENRE) of texts. *)
Definition df_clean (df : DataFrame) : list (string * string) :=
  (λ p, (astype_str p.1, astype_str p.2)) <$> df_clean_celdas df.

(** Line 68. *)
Definition tabla_contingencia (df_clean : list (string * string)) : Tabla Z :=
  crosstab df_clean.

(** Lines 71-72. *)
Definition tabla_porcentajes (tc : Tabla Z) : Tabla Q :=
  round_tabla 2 (mul_escalar (div_axis0 tc (sum_axis1 tc)) 100).

Record FilaTop : Type := mkFilaTop {
  top_REGION : string;
  top_RANKING : nat;
  top_GENERO : string;
  top_VISUALIZACIONES : Z;
  top_PORCENTAJE : Q;
  top_TOTAL_REGION : Z
}.

(** The body of the loop of lines 77-93, for one region. *)
Definition top3_de_region (tc : Tabla Z) (region : string) : list FilaTop :=
  let generos_region := serie_de tc region in
  let total_region := suma generos_region.*2 in
  let top3 := nlargest 3 generos_region in
  imap (λ i gc,
          mkFilaTop region (S i) gc.1 gc.2
            (redondear 2 (inject_Z gc.2 / inject_Z total_region * 100))
            total_region) top3.

Definition top_generos_por_region (tc : Tabla Z) : list FilaTop :=
  t_index tc ≫= top3_de_region tc.

Record EstadisticaRegion : Type := mkEstadisticaRegion {
  REGION : string;
  TOTAL_VISUALIZACIONES : Z;
  GENEROS_UNICOS : Z;
  GENERO_MAS_POPULAR : option string;
  VISTAS_GENERO_TOP : Z;
  PORCENTAJE_GENERO_TOP : Q;
  INDICE_DIVERSIDAD : Q;
  NIVEL_DIVERSIDAD : option nivel
}.

(** One row of [stats_region], lines 98-118. *)
Definition stats_de_fila (tc : Tabla Z) (tp : Tabla Q)
    (region : string) (fila : list Z) : EstadisticaRegion :=
  let indice := calcular_hhi (default [] (loc tp region)) in
  mkEstadisticaRegion region
    (suma fila)
    (Z.of_nat (length (filter (λ c, 0 < c) fila)))
    (idxmax (zip (t_columns tc) fila))
    (maximo fila)
    (redondear 2 (inject_Z (maximo fila) / inject_Z (suma fila) * 100))
    indice
    (nivel_diversidad indice).

Definition stats_region (tc : Tabla Z) (tp : Tabla Q) : list EstadisticaRegion :=
  zip_with (stats_de_fila tc tp) (t_index tc) (t_values tc).

Record Resultado : Type := mkResultado {
  r_tabla_contingencia : Tabla Z;
  r_tabla_porcentajes : Tabla Q;
  r_top_generos : list FilaTop;
  r_stats_region : list EstadisticaRegion
}.

(** The aggregation of lines 68-118. *)
Definition agregar (df_clean : list (string * string)) : Resultado :=
  let tc := tabla_contingencia df_clean in
  let tp := tabla_porcentajes tc in
  mkResultado tc tp (top_generos_por_region tc) (stats_region tc tp).

Definition hojas : list string :=
  ["Frecuencias Absolutas"; "Porcentajes por Región"; "Top Géneros por Región";
   "Estadísticas Regiones"; "Resumen Ejecutivo"].

(** The body of the [try] of lines 20-250.  With no cleaned record the
    tables are empty, [df_top] is a frame without columns, and
    [df_top['RANKING']] of line 123 raises after the banner of lines
    121-122; the drawing of the chart is not part of the model. *)
Definition cuerpo (fs : SistemaArchivos) (archivo_excel archivo_salida : string)
  : Efecto (option Resultado) :=
  match fs archivo_excel with
  | None => print (ArchivoNoExiste archivo_excel);; mret None
  | Some libro =>
      hoja ← leer_hoja libro;
      match hoja with
      | None => mret None
      | Some df =>
          match columna_faltante columnas_requeridas df with
          | Some c =>
              print (ColumnaNoEncontrada c);;
              print (ColumnasDisponibles (columns df));;
              mret None
          | None =>
              let dfc := df_clean df in
              print (Informe "ANÁLISIS DE RELACIÓN REGIÓN-GÉNERO"
                       [Z.of_nat (length dfc);
                        Z.of_nat (length (remove_dups dfc.*1));
                        Z.of_nat (length (remove_dups dfc.*2))]);;
              let r := agregar dfc in
              print (Informe "TOP 1 GÉNERO POR REGIÓN" []);;
              (if decide (r_top_generos r = []) then raise (KeyError "RANKING")
               else mret ());;
              print (Informe "ESTADÍSTICAS GENERALES" []);;
              emitir (ExcelWriter archivo_salida hojas);;
              print (ArchivoGenerado archivo_salida);;
              print (Informe "¿EXISTE UNA RELACIÓN ENTRE REGIÓN Y GÉNERO?" []);;
              mret (Some r)
          end
      end
  end.

(** Lines 11-256. *)
Definition analizar_relacion_region_genero
    (fs : SistemaArchivos) (archivo_excel archivo_salida : string)
  : Efecto (option Resultado) :=
  try_except (cuerpo fs archivo_excel archivo_salida)
    (λ e, print (ErrorInesperado e);; mret None).

End RegionGenero.

(** ** Devices per customer ([dataset_exam_devices.py]) *)

Module Dispositivos.

Definition columnas_requeridas : list string := ["CUSTOMER_ID"; "DEVICE"].

(** Cleaning, lines 42-45. *)
Definition df_clean_celdas (df : DataFrame) : list (celda * celda) :=
  let df_clean := seleccionar2 df "CUSTOMER_ID" "DEVICE" in
  let df_clean := (λ p, (astype_str_strip p.1, p.2)) <$> df_clean in
  let df_clean := (λ p, (p.1, astype_str_strip p.2)) <$> df_clean in
  dropna2 df_clean.

Definition df_clean (df : DataFrame) : list (string * string) :=
  (λ p, (astype_str p.1, astype_str p.2)) <$> df_clean_celdas df.

(** The two [defaultdict]s of lines 48-49. *)
Record Acumulado : Type := mkAcumulado {
  clientes_dispositivos : gmap string (gset string);
  clientes_registros : gmap string (list string)
}.

(** One turn of the loop of lines 52-57. *)
Definition registrar (ac : Acumulado) (row : string * string) : Acumulado :=
  let customer_id := row.1 in
  let device := row.2 in
  mkAcumulado
    (<[customer_id :=
         default ∅ (clientes_dispositivos ac !! customer_id) ∪ {[device]}]>
       (clientes_dispositivos ac))
    (<[customer_id :=
         default [] (clientes_registros ac !! customer_id) ++ [device]]>
       (clientes_registros ac)).

Definition acumular (df_clean : list (string * string)) : Acumulado :=
  foldl registrar (mkAcumulado ∅ ∅) df_clean.

Record FilaAnalisis : Type := mkFilaAnalisis {
  CUSTOMER_ID : string;
  CANTIDAD_DISPOSITIVOS : nat;
  DISPOSITIVOS_UTILIZADOS : string;
  USA_MULTIPLES_DISPOSITIVOS : string;
  TOTAL_VISUALIZACIONES : nat;
  DISP_UNICOS_TOTAL : string
}.

(** The body of the loop of lines 62-74, for one customer. *)
Definition fila_analisis (ac : Acumulado)
    (customer_id : string) (dispositivos : gset string) : FilaAnalisis :=
  let cantidad_dispositivos := size dispositivos in
  let lista_dispositivos :=
    join ", " (merge_sort cadena_le (elements dispositivos)) in
  let total_registros :=
    length (default [] (clientes_registros ac !! customer_id)) in
  mkFilaAnalisis customer_id cantidad_dispositivos lista_dispositivos
    (if decide (1 < cantidad_dispositivos)%nat then "Sí" else "No")
    total_registros
    (pretty cantidad_dispositivos +:+ "/" +:+ pretty total_registros).

(** The rows of [analisis_data]; the order of the customers is not kept, the
    rows are sorted afterwards. *)
Definition analisis_data (ac : Acumulado) : list FilaAnalisis :=
  (λ kv, fila_analisis ac kv.1 kv.2) <$> map_to_list (clientes_dispositivos ac).

(** [df.sort_values('CANTIDAD_DISPOSITIVOS', ascending=False)]; the order
    of rows with equal counts is whatever the sort leaves. *)
Definition mas_dispositivos (a b : FilaAnalisis) : Prop :=
  (CANTIDAD_DISPOSITIVOS b ≤ CANTIDAD_DISPOSITIVOS a)%nat.

#[global] Instance mas_dispositivos_dec a b : Decision (mas_dispositivos a b).
Proof. unfold mas_dispositivos. apply _. Defined.

Definition sort_values_desc (l : list FilaAnalisis) : list FilaAnalisis :=
  merge_sort mas_dispositivos l.

(** Lines 42-80: from the sheet to the sorted table of customers. *)
Definition df_analisis (df : DataFrame) : list FilaAnalisis :=
  sort_values_desc (analisis_data (acumular (df_clean df))).

Definition hojas : list string :=
  ["Análisis por Cliente"; "Estadísticas"; "Clientes Múltiples"; "Dispositivos"].

(** The body of the [try] of lines 15-199.  A frame built from no row has
    no column, and sorting it by one (line 80) raises. *)
Definition cuerpo (fs : SistemaArchivos) (archivo_excel archivo_salida : string)
  : Efecto (option (list FilaAnalisis)) :=
  match fs archivo_excel with
  | None => print (ArchivoNoExiste archivo_excel);; mret None
  | Some libro =>
      hoja ← leer_hoja libro;
      match hoja with
      | None => mret None
      | Some df =>
          match columna_faltante columnas_requeridas df with
          | Some c =>
              print (ColumnaNoEncontrada c);;
              print (ColumnasDisponibles (columns df));;
              mret None
          | None =>
              let datos := analisis_data (acumular (df_clean df)) in
              (if decide (datos = []) then
                 raise (KeyError "CANTIDAD_DISPOSITIVOS")
               else mret ());;
              let tabla := sort_values_desc datos in
              let multiples :=
                filter (λ f, (1 < CANTIDAD_DISPOSITIVOS f)%nat) tabla in
              print (Informe "ANÁLISIS DE DISPOSITIVOS POR CLIENTE"
                       [Z.of_nat (length tabla); Z.of_nat (length multiples)]);;
              print (Informe "DISTRIBUCIÓN DE DISPOSITIVOS" []);;
              print (Informe "¿UTILIZAN MÁS DE UN DISPOSITIVO PARA CONSUMIR VIDEO?"
                       [Z.of_nat (length multiples)]);;
              emitir (ExcelWriter archivo_salida hojas);;
              print (ArchivoGenerado archivo_salida);;
              mret (Some tabla)
          end
      end
  end.

(** Lines 6-205. *)
Definition analizar_dispositivos_por_cliente
    (fs : SistemaArchivos) (archivo_excel archivo_salida : string)
  : Efecto (option (list FilaAnalisis)) :=
  try_except (cuerpo fs archivo_excel archivo_salida)
    (λ e, print (ErrorInesperado e);; mret None).

End Dispositivos.

(** ** Customer identifiers ([dataset_exam_customers.py]) *)

Module Clientes.

(** [df['CUSTOMER_ID'].dropna().astype(str)], line 39. *)
Definition customer_ids (df : DataFrame) : list string :=
  astype_str <$> filter (λ c, es_nan c = false) (columna df "CUSTOMER_ID").

(** [s.nunique()] *)
Definition nunique (l : list string) : nat := length (remove_dups l).

(** [Counter(l)]: the keys in the order they are first met. *)
Fixpoint contar_clave (k : string) (c : list (string * Z)) : list (string * Z) :=
  match c with
  | [] => [(k, 1)]
  | (k', n) :: c' =>
      if decide (k = k') then (k', n + 1) :: c' else (k', n) :: contar_clave k c'
  end.

Definition Counter (l : list string) : list (string * Z) :=
  foldl (λ c k, contar_clave k c) [] l.

(** The body of the [try] of lines 14-103. *)
Definition cuerpo (fs : SistemaArchivos) (archivo_excel : string) : Efecto () :=
  match fs archivo_excel with
  | None => print (ArchivoNoExiste archivo_excel)
  | Some libro =>
      hoja ← leer_hoja libro;
      match hoja with
      | None => mret ()
      | Some df =>
          if decide ("CUSTOMER_ID" ∉ columns df) then
            print (ColumnaNoEncontrada "CUSTOMER_ID");;
            print (ColumnasDisponibles (columns df))
          else
            let ids := customer_ids df in
            let total_registros := Z.of_nat (length ids) in
            let total_unicos := Z.of_nat (nunique ids) in
            print (Informe "ANÁLISIS DE CUSTOMER_ID"
                     [total_registros; total_unicos;
                      total_registros - total_unicos]);;
            let contador := Counter ids in
            let duplicados := filter (λ kv, 1 < kv.2) contador in
            (if decide (duplicados = []) then
               print (Informe "No se encontraron CUSTOMER_IDs duplicados" [])
             else print (Informe "CUSTOMER_IDs DUPLICADOS" duplicados.*2));;
            (if decide (0 < total_unicos) then
               print (Informe "Primeros 5 CUSTOMER_IDs únicos" [])
             else mret ());;
            print (Informe "RESUMEN ESTADÍSTICO" []);;
            cociente ← div_python (Z.of_nat (length duplicados)) total_unicos;
            print (Porcentaje "Porcentaje de duplicados" (cociente * 100));;
            print (Informe "Ratio duplicados/únicos"
                     [Z.of_nat (length duplicados); total_unicos]);;
            emitir (to_csv "analisis_customer_ids.csv"
                      ((λ kv, (kv.1, kv.2, bool_decide (1 < kv.2))) <$> contador))
      end
  end.

(** Lines 6-106. *)
Definition analizar_customer_ids (fs : SistemaArchivos) (archivo_excel : string)
  : Efecto () :=
  try_except (cuerpo fs archivo_excel) (λ e, print (ErrorInesperado e)).

End Clientes.

(** ** Recurrence of consumption ([dataset_exam_screentime_visualizations.py]) *)

Module Recurrencia.

Section limpieza.

(** The number that [pd.to_numeric] reads in the text of a cell, if any. *)
Variable numero_de_texto : string → option Q.

(** [pd.to_numeric(col, errors='coerce')] on one cell: what is not a
    number becomes missing. *)
Definition to_numeric (c : celda) : option Q :=
  match c with
  | NaN => None
  | Texto s => numero_de_texto s
  end.

(** Cleaning, lines 48-53: the rows whose SCREENTIME is a number. *)
Definition df_clean (df : DataFrame) : list (string * Q) :=
  let df_clean := seleccionar2 df "CUSTOMER_ID" "SCREENTIME" in
  let df_clean := (λ p, (astype_str_strip p.1, p.2)) <$> df_clean in
  let df_clean := (λ p, (p.1, to_numeric p.2)) <$> df_clean in
  omap (λ p, if es_nan p.1 then None else pair (astype_str p.1) <$> p.2) df_clean.

End limpieza.

End Recurrencia.

(** ** Genres ([dataset_exam_genre.py]) *)

Module Generos.

(** [df['GENRE'].dropna().astype(str).str.strip()], line 43. *)
Definition generos (df : DataFrame) : list string :=
  (λ c, strip (astype_str c)) <$>
    filter (λ c, es_nan c = false) (columna df "GENRE").

End Generos.

(** ** Shows ([dataset_exam_top_shows.py]) *)

Module Shows.

(** Cleaning, lines 47-52. *)
Definition df_clean_celdas (df : DataFrame) : list (celda * celda) :=
  let df_clean := seleccionar2 df "TITLE" "GENRE" in
  let df_clean := (λ p, (astype_str_strip p.1, p.2)) <$> df_clean in
  let df_clean := (λ p, (p.1, astype_str_strip p.2)) <$> df_clean in
  let df_clean := dropna2 df_clean in
  let df_clean := filter (λ p, no_vacia p.1) df_clean in
  let df_clean := filter (λ p, no_vacia p.2) df_clean in
  df_clean.

Definition df_clean (df : DataFrame) : list (string * string) :=
  (λ p, (astype_str p.1, astype_str p.2)) <$> df_clean_celdas df.

End Shows.

(** ** Reference quantities of the statements *)

(** The number of records of one region. *)
Definition registros_de (region : string) (regs : list (string * string)) : Z :=
  Z.of_nat (length (filter (λ p, p.1 = region) regs)).

(** The percentages of a row of counts: what lines 71-72 compute for it. *)
Definition porcentajes_fila (fila : list Z) : list Q :=
  (λ c, redondear 2 (inject_Z c / inject_Z (suma fila) * 100)) <$> fila.

(** ** Order of occurrence *)


(** Descending order of the values of a series. *)
Definition desc (a b : string * Z) : Prop := b.2 ≤ a.2.

(** ** Sample inputs *)

(** The records of the example of the specification. *)
Definition ejemplo : list (string * string) :=
  [("RegionA", "Comedy"); ("RegionA", "Comedy"); ("RegionA", "Drama");
   ("RegionB", "Drama")].

(** A region with eight genres seen once each, and a region with one genre. *)
Definition ejemplo_niveles : list (string * string) :=
  [("Norte", "Action"); ("Norte", "Comedy"); ("Norte", "Crime");
   ("Norte", "Drama"); ("Norte", "Family"); ("Norte", "Horror");
   ("Norte", "Kids"); ("Norte", "Sports"); ("Sur", "Drama")].




(** A workbook whose sheet has the column CUSTOMER_ID and no row. *)
Definition hoja_sin_registros : DataFrame := mkDataFrame ["CUSTOMER_ID"] [].

Definition fs_sin_registros : SistemaArchivos :=
  λ _, Some [("Dataset", hoja_sin_registros)].

(** A workbook whose sheet lacks the column GENRE and the column DEVICE. *)
Definition hoja_sin_columnas : DataFrame :=
  mkDataFrame ["REGION"; "CUSTOMER_ID"] [[Texto "Norte"; Texto "c1"]].

Definition fs_sin_columnas : SistemaArchivos :=
  λ _, Some [("Dataset", hoja_sin_columnas)].

(** A sheet of devices with a blank customer and a missing customer. *)
Definition hoja_con_blancos : DataFrame :=
  mkDataFrame ["CUSTOMER_ID"; "DEVICE"]
    [[Texto "  "; Texto "TV"]; [NaN; Texto "Phone"]].

(** A sheet with the columns of every analysis: two customers, two
    regions, and one record with a blank region. *)
Definition hoja_completa : DataFrame :=
  mkDataFrame ["CUSTOMER_ID"; "REGION"; "GENRE"; "DEVICE"; "SCREENTIME"]
    [[Texto "c1"; Texto "Norte"; Texto "Drama"; Texto "TV"; Texto "30"];
     [Texto "c1"; Texto " Norte"; Texto "Comedy"; Texto "Phone"; Texto "45"];
     [Texto "c2"; Texto "Sur"; Texto "Drama "; Texto "TV"; Texto "60"];
     [Texto "c2"; Texto "  "; Texto "Drama"; Texto "TV"; NaN]].

Definition fs_completo : SistemaArchivos :=
  λ archivo,
    if decide (archivo = "datos.xlsx") then Some [("Dataset", hoja_completa)]
    else None.

(** ** The statistics of the device analysis *)

(** [s.value_counts()]: the distinct values with the number of times each
    occurs, larger counts first; the order of values with equal counts is
    whatever the sort leaves. *)
Definition value_counts (l : list string) : Serie :=
  ordenar_desc
    ((λ d, (d, Z.of_nat (length (filter (λ x, x = d) l)))) <$> remove_dups l).

(** Lines 83-92 of [dataset_exam_devices.py], as functions of the table
    [df_analisis] and of the dictionary of devices. *)
Module EstadisticasDispositivos.

Definition total_clientes (df_analisis : list Dispositivos.FilaAnalisis) : nat :=
  length df_analisis.

Definition clientes_multiples (df_analisis : list Dispositivos.FilaAnalisis)
  : nat :=
  length (filter (λ f, (1 < Dispositivos.CANTIDAD_DISPOSITIVOS f)%nat) df_analisis).

Definition porcentaje_multiples (df_analisis : list Dispositivos.FilaAnalisis)
  : Q :=
  if decide (0 < total_clientes df_analisis)%nat then
    (inject_Z (Z.of_nat (clientes_multiples df_analisis))
     / inject_Z (Z.of_nat (total_clientes df_analisis)) * 100)%Q
  else 0%Q.

Definition clientes_un_dispositivo (df_analisis : list Dispositivos.FilaAnalisis)
  : nat :=
  length (filter (λ f, Dispositivos.CANTIDAD_DISPOSITIVOS f = 1%nat) df_analisis).

Definition clientes_mas_de_dos (df_analisis : list Dispositivos.FilaAnalisis)
  : nat :=
  length (filter (λ f, (2 < Dispositivos.CANTIDAD_DISPOSITIVOS f)%nat) df_analisis).

Definition todos_dispositivos (ac : Dispositivos.Acumulado) : list string :=
  map_to_list (Dispositivos.clientes_dispositivos ac) ≫= λ kv, elements kv.2.

Definition dispositivo_counts (ac : Dispositivos.Acumulado) : Serie :=
  value_counts (todos_dispositivos ac).

End EstadisticasDispositivos.

(** ** The distinct customer identifiers *)

(** [s.unique()]: the distinct values in the order they are first met
    (line 75 of [dataset_exam_customers.py]). *)
Definition unique (l : list string) : list string :=
  foldl (λ vistos x, if decide (x ∈ vistos) then vistos else vistos ++ [x]) [] l.

(** ** Recurrence of consumption: the analysis *)

(** An edge of a list of bins: a number or [float('inf')]. *)
Inductive borde : Type :=
| Finito (q : Q)
| Infinito.

Definition borde_le (a b : borde) : bool :=
  match a, b with
  | _, Infinito => true
  | Infinito, Finito _ => false
  | Finito x, Finito y => Qle_bool x y
  end.

Definition borde_lt (a b : borde) : bool := negb (borde_le b a).

Fixpoint no_decreciente (bins : list borde) : bool :=
  match bins with
  | a :: (b :: _) as bins' => borde_le a b && no_decreciente bins'
  | _ => true
  end.

Fixpoint creciente (bins : list borde) : bool :=
  match bins with
  | a :: (b :: _) as bins' => borde_lt a b && creciente bins'
  | _ => true
  end.

(** What ends the analysis of recurrence before its report: the division
    of line 63, and the two [ValueError]s of [pd.cut] on its bins. *)
Inductive fallo : Type :=
| DivisionPorCero
| BinsNoMonotonos
| BordesRepetidos.

(** The checks of [pd.cut] on explicit bins: they must not decrease, and,
    unless there are just two, no edge may be repeated. *)
Definition validar_bins (bins : list borde) : option fallo :=
  if negb (no_decreciente bins) then Some BinsNoMonotonos
  else if negb (creciente bins) && negb (length bins =? 2)%nat then
    Some BordesRepetidos
  else None.

(** The label of the first interval that holds [x]: intervals (a, b] with
    [right=True], the default, and [a, b) with [right=False]; no label for a
    value outside every interval. *)
Fixpoint intervalo {L : Type} (right : bool) (bins : list borde)
    (labels : list L) (x : Q) : option L :=
  match bins, labels with
  | a :: (b :: _) as bins', l :: labels' =>
      if (if right then borde_lt a (Finito x) && borde_le (Finito x) b
          else borde_le a (Finito x) && borde_lt (Finito x) b)
      then Some l
      else intervalo right bins' labels' x
  | _, _ => None
  end.

(** [pd.cut(col, bins=bins, labels=labels, right=right)], as the function
    applied to each value of the column. *)
Definition pd_cut {L : Type} (right : bool) (bins : list borde)
    (labels : list L) : fallo + (Q → option L) :=
  match validar_bins bins with
  | Some e => inl e
  | None => inr (intervalo right bins labels)
  end.

(** The order of the numbers of a column. *)
Definition numero_le (a b : Q) : Prop := Qle_bool a b = true.

#[global] Instance numero_le_dec a b : Decision (numero_le a b).
Proof. unfold numero_le. apply _. Defined.

(** [s.quantile(q)] with linear interpolation; nothing for an empty
    series. *)
Definition quantile (l : list Q) (q : Q) : option Q :=
  let s := merge_sort numero_le l in
  let h := (inject_Z (Z.of_nat (length s) - 1) * q)%Q in
  let i := Z.to_nat (Qfloor h) in
  let g := (h - inject_Z (Qfloor h))%Q in
  a ← s !! i;
  let b := default a (s !! S i) in
  Some (a + (b - a) * g)%Q.

(** Lines 55-153 of [dataset_exam_screentime_visualizations.py], from the
    cleaned records to the table of customers; the standard deviation of
    line 72 is left out. *)
Module AnalisisRecurrencia.

Definition bins_frecuencia : list borde :=
  [Finito 0; Finito 1; Finito 3; Finito 10; Finito 50; Infinito].

Definition labels_frecuencia : list string :=
  ["Ocasional (1)"; "Frecuente (2-3)"; "Muy Frecuente (4-10)";
   "Super Usuario (11-50)"; "Power User (50+)"].

Definition labels_screentime : list string :=
  ["Bajo Consumo"; "Medio Consumo"; "Alto Consumo"].

(** Lines 67-68. *)
Definition frecuencia_clientes (df_clean : list (string * Q)) : Serie :=
  value_counts df_clean.*1.

Record Agregado : Type := mkAgregado {
  ag_CUSTOMER_ID : string;
  ag_SCREENTIME_TOTAL : Q;
  ag_SCREENTIME_PROMEDIO : Q;
  ag_FRECUENCIA : Z
}.

(** The sum, the mean and the count of the group of one customer. *)
Definition agregado_de (df_clean : list (string * Q)) (k : string) : Agregado :=
  let valores := (filter (λ p, p.1 = k) df_clean).*2 in
  mkAgregado k (sumaQ valores)
    (sumaQ valores / inject_Z (Z.of_nat (length valores)))
    (Z.of_nat (length valores)).

(** Lines 71-75: one row for each customer, in the order of the keys. *)
Definition screentime_clientes (df_clean : list (string * Q)) : list Agregado :=
  agregado_de df_clean <$> unicos_ordenados df_clean.*1.

(** [izq.merge(der, on='CUSTOMER_ID', how='inner')] *)
Definition merge (izq : Serie) (der : list Agregado) : list (Z * Agregado) :=
  izq ≫= λ kf, (λ a, (kf.2, a)) <$> filter (λ a, ag_CUSTOMER_ID a = kf.1) der.

Record Fila : Type := mkFila {
  CUSTOMER_ID : string;
  FRECUENCIA_VISUALIZACIONES : Z;
  SCREENTIME_TOTAL : Q;
  SCREENTIME_PROMEDIO : Q;
  FRECUENCIA : Z;
  SCREENTIME_POR_VISUALIZACION : Q;
  CATEGORIA_FRECUENCIA : option string;
  CATEGORIA_SCREENTIME : option string
}.

(** Lines 55-101. *)
Definition analisis_completo (df_clean : list (string * Q)) : fallo + list Fila :=
  let clientes_unicos := Z.of_nat (length (remove_dups df_clean.*1)) in
  if decide (clientes_unicos = 0) then inl DivisionPorCero
  else
    let base :=
      merge (frecuencia_clientes df_clean) (screentime_clientes df_clean) in
    match pd_cut false bins_frecuencia labels_frecuencia with
    | inl e => inl e
    | inr categoria_frecuencia =>
        let totales := (λ r, ag_SCREENTIME_TOTAL r.2) <$> base in
        match quantile totales (33 # 100), quantile totales (66 # 100) with
        | Some p33, Some p66 =>
            match pd_cut true [Finito 0; Finito p33; Finito p66; Infinito]
                    labels_screentime with
            | inl e => inl e
            | inr categoria_screentime =>
                inr ((λ r : Z * Agregado,
                        mkFila (ag_CUSTOMER_ID r.2) r.1
                          (ag_SCREENTIME_TOTAL r.2) (ag_SCREENTIME_PROMEDIO r.2)
                          (ag_FRECUENCIA r.2)
                          (ag_SCREENTIME_TOTAL r.2 / inject_Z r.1)
                          (categoria_frecuencia (inject_Z r.1))
                          (categoria_screentime (ag_SCREENTIME_TOTAL r.2)))
                     <$> base)
            end
        | _, _ => inl BinsNoMonotonos
        end
    end.

(** Lines 149-153. *)
Definition clientes_valiosos (analisis : list Fila) : list Fila :=
  filter (λ f,
            CATEGORIA_FRECUENCIA f
            ∈ [Some "Muy Frecuente (4-10)"; Some "Super Usuario (11-50)";
               Some "Power User (50+)"] ∧
            CATEGORIA_SCREENTIME f = Some "Alto Consumo") analisis.

End AnalisisRecurrencia.

(** Cleaned records of three customers with one, two and four views. *)
Definition ejemplo_recurrencia : list (string * Q) :=
  [("a", 10%Q); ("b", 20%Q); ("c", 40%Q); ("b", 5%Q); ("c", 1%Q); ("c", 1%Q);
   ("c", (1 # 2)%Q)].

(** The table of the analysis of these records, and its row of the
    customer with one view. *)
Definition analisis_ejemplo : list AnalisisRecurrencia.Fila :=
  match AnalisisRecurrencia.analisis_completo ejemplo_recurrencia with
  | inr analisis => analisis
  | inl _ => []
  end.

Definition fila_ejemplo : AnalisisRecurrencia.Fila :=
  AnalisisRecurrencia.mkFila "a" 1 10 10 1 10
    (Some "Frecuente (2-3)") (Some "Bajo Consumo").

(** ** The count of genres ([dataset_exam_genre.py], lines 47-93) *)

Module AnalisisGeneros.

(** Line 47. *)
Definition conteo_generos (generos : list string) : Serie :=
  value_counts generos.

(** Lines 65-66: [conteo_generos.index[0]] with [conteo_generos.iloc[0]];
    on an empty series both raise, which is [None] here. *)
Definition genero_mas_visto (conteo : Serie) : option (string * Z) :=
  head conteo.

(** Lines 86-93: the data of the pie chart, the genres after the tenth
    gathered under one label. *)
Definition datos_grafico (conteo : Serie) : Serie :=
  if decide (10 < length conteo)%nat then
    take 10 conteo ++ [("Otros", suma (drop 10 conteo).*2)]
  else conteo.

End AnalisisGeneros.

(** ** Files written by a run *)

(** The events of a trace that write a file. *)
Fixpoint escrituras (tr : list evento) : list evento :=
  match tr with
  | [] => []
  | Print _ :: tr' => escrituras tr'
  | e :: tr' => e :: escrituras tr'
  end.

(** ** The entry points of the scripts *)

(** [s.lstrip(chars)], [s.rstrip(chars)] and [s.strip(chars)] for a set of
    one-byte characters. *)
Fixpoint lstrip_chars (p : ascii → bool) (s : string) : string :=
  match s with
  | EmptyString => EmptyString
  | String c s' => if p c then lstrip_chars p s' else s
  end.

Fixpoint rstrip_chars (p : ascii → bool) (s : string) : string :=
  match s with
  | EmptyString => EmptyString
  | String c s' =>
      match rstrip_chars p s' with
      | EmptyString => if p c then EmptyString else String c EmptyString
      | r => String c r
      end
  end.

Definition strip_chars (p : ascii → bool) (s : string) : string :=
  rstrip_chars p (lstrip_chars p s).

(** The double quote, character 34. *)
Definition es_comilla (c : ascii) : bool := (nat_of_ascii c =? 34)%nat.

(** The path as every [main] reads it: the typed line, stripped of white
    space and then of double quotes at both ends. *)
Definition leer_ruta (linea : string) : string :=
  strip_chars es_comilla (strip linea).

(** [input(...).strip()], or the default name when nothing is typed. *)
Definition leer_salida (linea defecto : string) : string :=
  if decide (strip linea = EmptyString) then defecto else strip linea.

Definition ruta_invalida : mensaje := Informe "Debe ingresar una ruta válida" [].
Definition completado : mensaje := Informe "Análisis completado exitosamente!" [].

(** [main] of [dataset_exam_region_genre_relation.py], lines 259-282; the
    two arguments after the file system are the lines typed at the two
    prompts (the second is read only when the first gives a path). *)
Module MainRegionGenero.

Definition main (fs : SistemaArchivos) (linea1 linea2 : string) : Efecto () :=
  print (Informe "ANALIZADOR DE RELACIÓN REGIÓN-GÉNERO" []);;
  let archivo := leer_ruta linea1 in
  if decide (archivo = EmptyString) then print ruta_invalida
  else
    let archivo_salida := leer_salida linea2 "analisis_region_genero.xlsx" in
    resultado ←
      RegionGenero.analizar_relacion_region_genero fs archivo archivo_salida;
    match resultado with
    | Some _ => print completado
    | None => mret ()
    end.

End MainRegionGenero.

(** [main] of [dataset_exam_devices.py], lines 202-226. *)
Module MainDispositivos.

Definition main (fs : SistemaArchivos) (linea1 linea2 : string) : Efecto () :=
  print (Informe "ANALIZADOR DE DISPOSITIVOS POR CLIENTE" []);;
  let archivo := leer_ruta linea1 in
  if decide (archivo = EmptyString) then print ruta_invalida
  else
    let archivo_salida := leer_salida linea2 "analisis_dispositivos.xlsx" in
    resultado ←
      Dispositivos.analizar_dispositivos_por_cliente fs archivo archivo_salida;
    match resultado with
    | Some _ => print completado
    | None => mret ()
    end.

End MainDispositivos.

(** [main] of [dataset_exam_customers.py], lines 110-125. *)
Module MainClientes.

Definition main (fs : SistemaArchivos) (linea1 : string) : Efecto () :=
  print (Informe "ANALIZADOR DE CUSTOMER_ID EN EXCEL" []);;
  let archivo := leer_ruta linea1 in
  if decide (archivo = EmptyString) then print ruta_invalida
  else Clientes.analizar_customer_ids fs archivo.

End MainClientes.

(** * Properties *)

(** ** Sums *)

Lemma suma_app (l k : list Z) : suma (l ++ k) = suma l + suma k.
Proof. induction l as [|x l IH]; csimpl; lia. Qed.

Lemma suma_fmap_add {A} (f g : A → Z) (l : list A) :
  suma ((λ x, f x + g x) <$> l) = suma (f <$> l) + suma (g <$> l).
Proof. induction l as [|x l IH]; csimpl; lia. Qed.

Lemma suma_fmap_ext {A} (f g : A → Z) (l : list A) :
  (∀ x, x ∈ l → f x = g x) → suma (f <$> l) = suma (g <$> l).
Proof.
  induction l as [|x l IH]; csimpl; intros H; [done|].
  rewrite (H x) by left. rewrite IH; [done|].
  intros y Hy. apply H. by right.
Qed.

Lemma suma_fmap_const0 {A} (l : list A) : suma ((λ _, 0) <$> l) = 0.
Proof. induction l; csimpl; lia. Qed.


(** Over a duplicate-free list, the indicator of one of its elements adds
    up to one. *)
Lemma suma_indicador {A} `{EqDecision A} (x : A) (l : list A) :
  NoDup l →
  suma ((λ y, if decide (x = y) then 1 else 0) <$> l)
  = if decide (x ∈ l) then 1 else 0.
Proof.
  induction 1 as [|y l Hy Hl IH]; csimpl.
  - done.
  - rewrite IH. destruct (decide (x = y)) as [->|Hne].
    + rewrite (decide_False (P := y ∈ l)) by done.
      rewrite (decide_True (P := y ∈ y :: l)) by left. lia.
    + destruct (decide (x ∈ l)) as [Hin|Hin].
      * rewrite (decide_True (P := x ∈ y :: l)) by (by right). lia.
      * rewrite (decide_False (P := x ∈ y :: l)); [lia|].
        rewrite elem_of_cons. intros [?|?]; done.
Qed.

(** ** The contingency table *)

Lemma contar_nil a b : contar a b [] = 0.
Proof. done. Qed.

Lemma contar_cons a b p regs :
  contar a b (p :: regs)
  = (if decide (p = (a, b)) then 1 else 0) + contar a b regs.
Proof.
  unfold contar. rewrite filter_cons. case_decide; csimpl; lia.
Qed.

Lemma contar_nonneg a b regs : 0 ≤ contar a b regs.
Proof. unfold contar. lia. Qed.

Lemma unicos_ordenados_perm l : unicos_ordenados l ≡ₚ remove_dups l.
Proof. apply merge_sort_Permutation. Qed.

Lemma NoDup_unicos_ordenados l : NoDup (unicos_ordenados l).
Proof. rewrite unicos_ordenados_perm. apply NoDup_remove_dups. Qed.

Lemma elem_of_unicos_ordenados l x : x ∈ unicos_ordenados l ↔ x ∈ l.
Proof. rewrite unicos_ordenados_perm. apply elem_of_remove_dups. Qed.

(** The indicator of one record, added over a grid of labels that holds
    the record. *)
Lemma suma_rejilla_indicador (p : string * string) (idx cols : list string) :
  NoDup idx → NoDup cols → p.1 ∈ idx → p.2 ∈ cols →
  suma ((λ a, suma ((λ b, if decide (p = (a, b)) then 1 else 0) <$> cols)) <$> idx)
  = 1.
Proof.
  intros Hidx Hcols Hp1 Hp2. destruct p as [r g]; simpl in *.
  rewrite (suma_fmap_ext _ (λ a, if decide (r = a) then 1 else 0)).
  - rewrite suma_indicador by done. by rewrite decide_True.
  - intros a _. destruct (decide (r = a)) as [->|Hne].
    + rewrite (suma_fmap_ext _ (λ b, if decide (g = b) then 1 else 0)).
      * rewrite suma_indicador by done. by rewrite decide_True.
      * intros b _. repeat case_decide; congruence.
    + rewrite (suma_fmap_ext _ (λ _, 0)); [apply suma_fmap_const0|].
      intros b _. case_decide; congruence.
Qed.

Lemma suma_rejilla_contar (regs : list (string * string)) (idx cols : list string) :
  NoDup idx → NoDup cols →
  (∀ p, p ∈ regs → p.1 ∈ idx ∧ p.2 ∈ cols) →
  suma ((λ a, suma ((λ b, contar a b regs) <$> cols)) <$> idx)
  = Z.of_nat (length regs).
Proof.
  intros Hidx Hcols. induction regs as [|p regs IH]; intros Hin.
  - csimpl. rewrite (suma_fmap_ext _ (λ _, 0)); [apply suma_fmap_const0|].
    intros a _. apply suma_fmap_const0.
  - rewrite (suma_fmap_ext _
      (λ a, suma ((λ b, if decide (p = (a, b)) then 1 else 0) <$> cols)
            + suma ((λ b, contar a b regs) <$> cols))).
    + rewrite suma_fmap_add, suma_rejilla_indicador, IH; try done.
      * simpl length. lia.
      * intros q Hq. apply Hin. by right.
      * apply Hin. by left.
      * apply Hin. by left.
    + intros a _. rewrite <- suma_fmap_add. apply suma_fmap_ext.
      intros b _. apply contar_cons.
Qed.

(** C1. For every list of cleaned records, the entries of the contingency
    table built from it (one count for each pair of a region and a genre,
    zero for a pair that never occurs) add up to the number of records. *)
Theorem suma_tabla_contingencia (df_clean : list (string * string)) :
  suma_tabla (RegionGenero.tabla_contingencia df_clean)
  = Z.of_nat (length df_clean).
Proof.
  unfold suma_tabla, sum_axis1, RegionGenero.tabla_contingencia, crosstab.
  simpl. rewrite <- list_fmap_compose.
  apply suma_rejilla_contar; try apply NoDup_unicos_ordenados.
  intros p Hp. rewrite !elem_of_unicos_ordenados. split.
  - apply list_elem_of_fmap. by exists p.
  - apply list_elem_of_fmap. by exists p.
Qed.

(** ** Rounding *)

Lemma rint_cotas (q : Q) :
  (q - (1 # 2) <= inject_Z (rint q) <= q + (1 # 2))%Q.
Proof.
  unfold rint.
  pose proof (Qfloor_le q) as Hlo.
  pose proof (Qlt_floor q) as Hhi.
  rewrite inject_Z_plus in Hhi; change (inject_Z 1) with 1%Q in Hhi.
  destruct (Qcompare_spec (q - inject_Z (Qfloor q)) (1 # 2)) as [He|Hl|Hg].
  - destruct (Z.even (Qfloor q)).
    + lra.
    + rewrite inject_Z_plus; change (inject_Z 1) with 1%Q; lra.
  - lra.
  - rewrite inject_Z_plus; change (inject_Z 1) with 1%Q; lra.
Qed.

Lemma rint_comp (p q : Q) : (p == q)%Q → rint p = rint q.
Proof.
  intros H. unfold rint. rewrite (Qfloor_comp _ _ H).
  assert (E : (p - inject_Z (Qfloor q) ?= 1 # 2)%Q
              = (q - inject_Z (Qfloor q) ?= 1 # 2)%Q).
  { apply Qcompare_comp; [rewrite H; reflexivity | reflexivity]. }
  rewrite E. reflexivity.
Qed.

Lemma rint_inject_Z z : rint (inject_Z z) = z.
Proof.
  unfold rint. rewrite Qfloor_Z.
  destruct (Qcompare_spec (inject_Z z - inject_Z z) (1 # 2)) as [He|Hl|Hg];
    [exfalso; lra | reflexivity | exfalso; lra].
Qed.

Lemma potencia_pos (d : nat) : (0 < inject_Z (10 ^ Z.of_nat d))%Q.
Proof.
  replace 0%Q with (inject_Z 0) by reflexivity.
  rewrite <- Zlt_Qlt. apply Z.pow_pos_nonneg; lia.
Qed.

Lemma redondear_cotas (d : nat) (q : Q) :
  (Qabs (redondear d q - q) <= 1 / (2 * inject_Z (10 ^ Z.of_nat d)))%Q.
Proof.
  unfold redondear. pose proof (potencia_pos d) as Hpos.
  set (k := inject_Z (10 ^ Z.of_nat d)) in *.
  pose proof (rint_cotas (q * k)) as [H1 H2].
  set (r := inject_Z (rint (q * k))) in *.
  apply Qabs_case; intros _.
  - apply Qle_shift_div_l; [lra|].
    assert (E : ((r / k - q) * (2 * k) == 2 * r - 2 * (q * k))%Q) by (field; lra).
    rewrite E. lra.
  - apply Qle_shift_div_l; [lra|].
    assert (E : (- (r / k - q) * (2 * k) == 2 * (q * k) - 2 * r)%Q) by (field; lra).
    rewrite E. lra.
Qed.

(** Rounding to two decimals moves a number by at most 0.005. *)
Lemma redondear2_cotas (q : Q) :
  (q - (1 # 200) <= redondear 2 q <= q + (1 # 200))%Q.
Proof.
  pose proof (redondear_cotas 2 q) as H.
  apply Qabs_Qle_condition in H.
  change (1 / (2 * inject_Z (10 ^ Z.of_nat 2)))%Q with (1 # 200)%Q in H.
  destruct H. split; lra.
Qed.

Lemma redondear_comp d (p q : Q) :
  (p == q)%Q → (redondear d p == redondear d q)%Q.
Proof.
  intros H. unfold redondear.
  rewrite (rint_comp (p * inject_Z (10 ^ Z.of_nat d))
                     (q * inject_Z (10 ^ Z.of_nat d)));
    [reflexivity|]. rewrite H. reflexivity.
Qed.

Lemma redondear_inject_Z d z : (redondear d (inject_Z z) == inject_Z z)%Q.
Proof.
  unfold redondear. rewrite <- inject_Z_mult, rint_inject_Z, inject_Z_mult.
  pose proof (potencia_pos d). field. lra.
Qed.

(** ** Sums of rationals *)

Lemma inject_Z_S (n : nat) :
  (inject_Z (Z.of_nat (S n)) == inject_Z (Z.of_nat n) + 1)%Q.
Proof. rewrite Nat2Z.inj_succ. unfold Z.succ. rewrite inject_Z_plus. reflexivity. Qed.



(** ** Rows *)

Lemma loc_fmap_index {A} (idx cols : list string) (f : string → list A) r :
  r ∈ idx → loc (mkTabla idx cols (f <$> idx)) r = Some (f r).
Proof.
  unfold loc. simpl. induction idx as [|a idx IH]; intros Hr.
  - by apply elem_of_nil in Hr.
  - rewrite fmap_cons. cbn [zip zip_with]. rewrite filter_cons. cbn [fst].
    destruct (decide (a = r)) as [->|Hne]; [done|].
    apply IH. apply elem_of_cons in Hr as [->|Hr]; done.
Qed.

Lemma loc_is_Some {A} (t : Tabla A) r fila :
  loc t r = Some fila → r ∈ t_index t ∧ fila ∈ t_values t.
Proof.
  unfold loc. intros H.
  destruct (head _) as [[a v]|] eqn:Hh; [|done]. simpl in H. simplify_eq.
  apply head_Some_elem_of in Hh. apply list_elem_of_filter in Hh as [Hp Hin].
  simpl in Hp. subst a. split.
  - eapply elem_of_zip_l, Hin.
  - eapply elem_of_zip_r, Hin.
Qed.

Lemma loc_crosstab regs r :
  r ∈ regs.*1 →
  loc (crosstab regs) r
  = Some ((λ b, contar r b regs) <$> unicos_ordenados regs.*2).
Proof.
  intros Hr. unfold crosstab.
  apply (loc_fmap_index _ _ (λ a, (λ b, contar a b regs) <$> _)).
  by apply elem_of_unicos_ordenados.
Qed.

Lemma index_crosstab regs r : r ∈ t_index (crosstab regs) ↔ r ∈ regs.*1.
Proof. apply elem_of_unicos_ordenados. Qed.

Lemma suma_fila_contar (regs : list (string * string)) (cols : list string) r :
  NoDup cols → (∀ p, p ∈ regs → p.2 ∈ cols) →
  suma ((λ b, contar r b regs) <$> cols) = registros_de r regs.
Proof.
  intros Hcols. unfold registros_de.
  induction regs as [|p regs IH]; intros Hin.
  - apply suma_fmap_const0.
  - rewrite (suma_fmap_ext _
      (λ b, (if decide (p = (r, b)) then 1 else 0) + contar r b regs))
      by (intros; apply contar_cons).
    rewrite suma_fmap_add, IH by (intros; apply Hin; by right).
    rewrite filter_cons. destruct p as [a g]. cbn [fst].
    destruct (decide (a = r)) as [->|Hne].
    + rewrite (suma_fmap_ext _ (λ b, if decide (g = b) then 1 else 0))
        by (intros; repeat case_decide; congruence).
      rewrite suma_indicador, decide_True by (done || apply (Hin (r, g)); left).
      simpl length. lia.
    + rewrite (suma_fmap_ext _ (λ _, 0))
        by (intros; case_decide; congruence).
      rewrite suma_fmap_const0. lia.
Qed.

Lemma registros_de_pos r regs : r ∈ regs.*1 → 0 < registros_de r regs.
Proof.
  intros Hr. apply list_elem_of_fmap in Hr as [p [-> Hp]].
  unfold registros_de.
  assert (Hin : p ∈ filter (λ q, q.1 = p.1) regs) by (by apply list_elem_of_filter).
  destruct (filter _ regs); [by apply elem_of_nil in Hin | simpl; lia].
Qed.

(** The total of the row of a region is the number of its records. *)
Lemma suma_fila_crosstab regs r fila :
  loc (crosstab regs) r = Some fila → suma fila = registros_de r regs.
Proof.
  intros H. pose proof (loc_is_Some _ _ _ H) as [Hr _].
  rewrite index_crosstab in Hr. rewrite loc_crosstab in H by done.
  simplify_eq. apply suma_fila_contar; [apply NoDup_unicos_ordenados|].
  intros p Hp. apply elem_of_unicos_ordenados, list_elem_of_fmap. by exists p.
Qed.

(** No row of a contingency table has a zero total. *)
Lemma sum_axis1_crosstab_pos regs :
  Forall (λ t, 0 < t) (sum_axis1 (crosstab regs)).
Proof.
  unfold sum_axis1, crosstab. simpl. rewrite <- list_fmap_compose.
  apply Forall_fmap, Forall_forall. intros r Hr. simpl.
  rewrite elem_of_unicos_ordenados in Hr.
  rewrite suma_fila_contar; [by apply registros_de_pos|apply NoDup_unicos_ordenados|].
  intros p Hp. apply elem_of_unicos_ordenados, list_elem_of_fmap. by exists p.
Qed.

Lemma values_tabla_porcentajes (tc : Tabla Z) :
  t_values (RegionGenero.tabla_porcentajes tc) = porcentajes_fila <$> t_values tc.
Proof.
  unfold RegionGenero.tabla_porcentajes, round_tabla, mul_escalar, div_axis0,
    sum_axis1. simpl.
  rewrite zip_with_fmap_r, zip_with_diag, <- !list_fmap_compose.
  apply list_fmap_ext. intros _ fila _. simpl.
  unfold porcentajes_fila. rewrite <- !list_fmap_compose. done.
Qed.

Lemma loc_fmap_values {A B} (f : list A → list B) (t : Tabla A) (u : Tabla B) r :
  t_index u = t_index t → t_values u = f <$> t_values t →
  loc u r = f <$> loc t r.
Proof.
  unfold loc. intros -> ->. generalize (t_values t) as vs.
  induction (t_index t) as [|a idx IH]; intros [|v vs]; try done.
  rewrite fmap_cons. cbn [zip zip_with]. rewrite !filter_cons. cbn [fst].
  destruct (decide (a = r)); [done|]. apply IH.
Qed.

Lemma loc_tabla_porcentajes (tc : Tabla Z) r :
  loc (RegionGenero.tabla_porcentajes tc) r = porcentajes_fila <$> loc tc r.
Proof. apply loc_fmap_values; [done | apply values_tabla_porcentajes]. Qed.




(** ** The concentration index *)

Lemma calcular_hhi_cons (p : Q) (ps : list Q) :
  calcular_hhi (p :: ps) = (p ^ 2 + calcular_hhi ps)%Q.
Proof. done. Qed.

Lemma redondear_cero (d : nat) (q : Q) : (q == 0)%Q → (redondear d q == 0)%Q.
Proof.
  intros H. rewrite (redondear_comp d q (inject_Z 0)) by (rewrite H; reflexivity).
  apply redondear_inject_Z.
Qed.

(** The index of a row whose entries are 0 or [c], against any total. *)
Lemma hhi_fila_uniforme (fila : list Z) (c : Z) (t : Q) :
  Forall (λ x, x = 0 ∨ x = c) fila → c ≠ 0 →
  (calcular_hhi ((λ x, redondear 2 (inject_Z x / t * 100)) <$> fila)
   == inject_Z (Z.of_nat (length (filter (λ x, x = c) fila)))
      * redondear 2 (inject_Z c / t * 100) ^ 2)%Q.
Proof.
  intros Hf Hc. induction Hf as [|x fila [->| ->] _ IH].
  - change (0 == inject_Z 0 * redondear 2 (inject_Z c / t * 100) ^ 2)%Q.
    change (inject_Z 0) with 0%Q. lra.
  - rewrite fmap_cons, calcular_hhi_cons, IH, filter_cons_False by done.
    rewrite (redondear_cero 2 (inject_Z 0 / t * 100)).
    + lra.
    + change (inject_Z 0) with 0%Q. unfold Qdiv. lra.
  - rewrite fmap_cons, calcular_hhi_cons, IH, filter_cons_True by done.
    cbn [length]. rewrite inject_Z_S. lra.
Qed.

Lemma suma_fila_uniforme (fila : list Z) (c : Z) :
  Forall (λ x, x = 0 ∨ x = c) fila →
  suma fila = Z.of_nat (length (filter (λ x, x = c) fila)) * c.
Proof.
  induction 1 as [|x fila [->| ->] _ IH]; [done| |].
  - destruct (decide (c = 0)) as [->|Hc].
    + cbn [suma foldr]. fold (suma fila). lia.
    + rewrite filter_cons_False by done. cbn [suma foldr]. fold (suma fila). lia.
  - rewrite filter_cons_True by done. cbn [suma foldr length]. fold (suma fila).
    lia.
Qed.

(** A number within 0.005 of 100/n has its square, taken n times, within
    1 + n/40000 of 10000/n. *)
Lemma cota_cuadrados (n p : Q) :
  (1 <= n)%Q →
  (100 / n - (1 # 200) <= p <= 100 / n + (1 # 200))%Q →
  (Qabs (n * p ^ 2 - 10000 / n) <= 1 + n / 40000)%Q.
Proof.
  intros Hn [H1 H2].
  set (e := (p - 100 / n)%Q).
  assert (He1 : (- (1 # 200) <= e)%Q) by (unfold e; lra).
  assert (He2 : (e <= 1 # 200)%Q) by (unfold e; lra).
  assert (E : (n * p ^ 2 - 10000 / n == 200 * e + n * (e * e))%Q).
  { unfold e. field. lra. }
  assert (Hee : (0 <= e * e <= 1 # 40000)%Q) by (split; nra).
  assert (Hnee : (0 <= n * (e * e) <= n * (1 # 40000))%Q) by (split; nra).
  assert (Hd : (n / 40000 == n * (1 # 40000))%Q) by (field).
  rewrite E, Hd. apply Qabs_Qle_condition. split; lra.
Qed.

(** The index of a row with [N] equal nonzero counts and zeros elsewhere. *)
Lemma hhi_porcentajes_uniforme (fila : list Z) (c : Z) :
  Forall (λ x, x = 0 ∨ x = c) fila → 0 < c → 0 < suma fila →
  let n := inject_Z (Z.of_nat (length (filter (λ x, x = c) fila))) in
  (1 <= n)%Q ∧
  (calcular_hhi (porcentajes_fila fila) == n * redondear 2 (100 / n) ^ 2)%Q.
Proof.
  intros Hf Hc Hpos n.
  pose proof (suma_fila_uniforme fila c Hf) as Hs.
  assert (Hn : (1 <= n)%Q).
  { unfold n. change 1%Q with (inject_Z 1). rewrite <- Zle_Qle. nia. }
  split; [done|].
  unfold porcentajes_fila. rewrite hhi_fila_uniforme by (done || lia).
  fold n. rewrite Hs, inject_Z_mult. fold n.
  assert (Hcq : (0 < inject_Z c)%Q).
  { change 0%Q with (inject_Z 0). by rewrite <- Zlt_Qlt. }
  rewrite (redondear_comp 2 (inject_Z c / (n * inject_Z c) * 100) (100 / n)).
  - reflexivity.
  - field. split; lra.
Qed.

(** ** The rows of [stats_region] *)

Lemma stats_region_crosstab regs :
  RegionGenero.r_stats_region (RegionGenero.agregar regs)
  = (λ r, let fila := (λ b, contar r b regs) <$> unicos_ordenados regs.*2 in
          RegionGenero.stats_de_fila (crosstab regs)
            (RegionGenero.tabla_porcentajes (crosstab regs)) r fila)
      <$> unicos_ordenados regs.*1.
Proof.
  unfold RegionGenero.agregar, RegionGenero.stats_region,
    RegionGenero.tabla_contingencia. cbn [RegionGenero.r_stats_region].
  unfold crosstab at 3 4. cbn [t_index t_values].
  by rewrite zip_with_fmap_r, zip_with_diag.
Qed.

(** Every row of [stats_region] is the row of a region with records, and
    its index and tier come from that region's row of the contingency
    table. *)
Lemma elem_of_stats_region regs (e : RegionGenero.EstadisticaRegion) :
  e ∈ RegionGenero.r_stats_region (RegionGenero.agregar regs) →
  ∃ fila,
    RegionGenero.REGION e ∈ regs.*1 ∧
    loc (crosstab regs) (RegionGenero.REGION e) = Some fila ∧
    RegionGenero.TOTAL_VISUALIZACIONES e = suma fila ∧
    RegionGenero.INDICE_DIVERSIDAD e = calcular_hhi (porcentajes_fila fila) ∧
    RegionGenero.NIVEL_DIVERSIDAD e
    = nivel_diversidad (RegionGenero.INDICE_DIVERSIDAD e).
Proof.
  rewrite stats_region_crosstab. intros He.
  apply list_elem_of_fmap in He as [r [-> Hr]].
  rewrite elem_of_unicos_ordenados in Hr. cbn.
  eexists. split; [done|]. split; [by apply loc_crosstab|].
  split; [done|]. split; [|done].
  by rewrite loc_tabla_porcentajes, loc_crosstab.
Qed.


(** C3. For a region whose row of the contingency table holds one nonzero
    count and zeros elsewhere, the concentration index in [stats_region] is
    10000; for a region whose row holds N equal nonzero counts and zeros
    elsewhere, the index is within 1 + N/40000 of 10000/N. *)
Theorem indice_de_fila_uniforme
    (df_clean : list (string * string)) (e : RegionGenero.EstadisticaRegion)
    (fila : list Z) (c : Z) :
  e ∈ RegionGenero.r_stats_region (RegionGenero.agregar df_clean) →
  loc (RegionGenero.tabla_contingencia df_clean) (RegionGenero.REGION e)
  = Some fila →
  0 < c →
  Forall (λ x, x = 0 ∨ x = c) fila →
  let N := length (filter (λ x, x = c) fila) in
  let n := inject_Z (Z.of_nat N) in
  (N = 1%nat → RegionGenero.INDICE_DIVERSIDAD e == 10000)%Q ∧
  (Qabs (RegionGenero.INDICE_DIVERSIDAD e - 10000 / n) <= 1 + n / 40000)%Q.
Proof.
  intros He Hloc Hc Hf N n.
  apply elem_of_stats_region in He as (fila' & Hr & Hloc' & _ & -> & _).
  unfold RegionGenero.tabla_contingencia in Hloc.
  rewrite Hloc in Hloc'. injection Hloc' as <-.
  assert (Hpos : 0 < suma fila).
  { rewrite (suma_fila_crosstab _ _ _ Hloc). by apply registros_de_pos. }
  destruct (hhi_porcentajes_uniforme fila c Hf Hc Hpos) as [Hn Hh].
  fold N in Hn, Hh. fold n in Hn, Hh. split.
  - intros HN. rewrite Hh. unfold n. rewrite HN.
    change (inject_Z (Z.of_nat 1)) with 1%Q.
    rewrite (redondear_comp 2 (100 / 1) (inject_Z 100)) by reflexivity.
    rewrite redondear_inject_Z. reflexivity.
  - rewrite Hh. apply cota_cuadrados; [done|].
    apply redondear2_cotas.
Qed.

(** ** The index never exceeds 10000 *)



















(** ** Tiers *)

Lemma Qle_bool_false (x y : Q) : Qle_bool x y = false ↔ (y < x)%Q.
Proof.
  rewrite <- not_true_iff_false, Qle_bool_iff. split.
  - apply Qnot_le_lt.
  - apply Qlt_not_le.
Qed.

Lemma nivel_diversidad_alta (i : Q) :
  (0 < i)%Q → (i <= 1500)%Q → nivel_diversidad i = Some Alta_Diversidad.
Proof.
  intros H0 H1. unfold nivel_diversidad, cut.
  rewrite (proj2 (Qle_bool_false i 0)), (proj2 (Qle_bool_iff i 1500)); done.
Qed.

Lemma nivel_diversidad_media (i : Q) :
  (1500 < i)%Q → (i <= 2500)%Q → nivel_diversidad i = Some Media_Diversidad.
Proof.
  intros H0 H1. unfold nivel_diversidad, cut.
  rewrite (proj2 (Qle_bool_false i 1500)) by done.
  rewrite (proj2 (Qle_bool_false i 0)) by lra.
  rewrite (proj2 (Qle_bool_iff i 2500)) by done. done.
Qed.

Lemma nivel_diversidad_baja (i : Q) :
  (2500 < i)%Q → (i <= 10000)%Q → nivel_diversidad i = Some Baja_Diversidad.
Proof.
  intros H0 H1. unfold nivel_diversidad, cut.
  rewrite (proj2 (Qle_bool_false i 1500)) by lra.
  rewrite (proj2 (Qle_bool_false i 0)) by lra.
  rewrite (proj2 (Qle_bool_false i 2500)) by done.
  rewrite (proj2 (Qle_bool_iff i 10000)) by done. done.
Qed.

Lemma nivel_diversidad_fuera (i : Q) :
  (i <= 0)%Q ∨ (10000 < i)%Q → nivel_diversidad i = None.
Proof.
  intros H. unfold nivel_diversidad, cut. destruct H as [H|H].
  - rewrite (proj2 (Qle_bool_iff i 0)) by done.
    rewrite (proj2 (Qle_bool_iff i 1500)) by lra.
    rewrite (proj2 (Qle_bool_iff i 2500)) by lra. done.
  - rewrite (proj2 (Qle_bool_false i 0)) by lra.
    rewrite (proj2 (Qle_bool_false i 1500)) by lra.
    rewrite (proj2 (Qle_bool_false i 2500)) by lra.
    rewrite (proj2 (Qle_bool_false i 10000)) by lra. done.
Qed.

(** What [nivel_diversidad] gives, by cases on the index. *)
Lemma nivel_diversidad_casos (i : Q) :
  ((i <= 0)%Q ∧ nivel_diversidad i = None) ∨
  ((0 < i)%Q ∧ (i <= 1500)%Q ∧ nivel_diversidad i = Some Alta_Diversidad) ∨
  ((1500 < i)%Q ∧ (i <= 2500)%Q ∧ nivel_diversidad i = Some Media_Diversidad) ∨
  ((2500 < i)%Q ∧ (i <= 10000)%Q ∧ nivel_diversidad i = Some Baja_Diversidad) ∨
  ((10000 < i)%Q ∧ nivel_diversidad i = None).
Proof.
  destruct (Qlt_le_dec 0 i) as [H0|H0];
    [|left; split; [done | apply nivel_diversidad_fuera; by left]].
  destruct (Qlt_le_dec 1500 i) as [H1|H1];
    [|right; left; auto using nivel_diversidad_alta].
  destruct (Qlt_le_dec 2500 i) as [H2|H2];
    [|right; right; left; auto using nivel_diversidad_media].
  destruct (Qlt_le_dec 10000 i) as [H3|H3];
    [|right; right; right; left; auto using nivel_diversidad_baja].
  right; right; right; right. split; [done|].
  apply nivel_diversidad_fuera; by right.
Qed.


(** C5. The tier is monotonic in the index: of two regions with a tier, the
    one with the smaller or equal index has the smaller or equal severity,
    in the order High < Medium < Low. *)
Theorem nivel_monotono
    (df_clean : list (string * string))
    (e1 e2 : RegionGenero.EstadisticaRegion) (n1 n2 : nivel) :
  e1 ∈ RegionGenero.r_stats_region (RegionGenero.agregar df_clean) →
  e2 ∈ RegionGenero.r_stats_region (RegionGenero.agregar df_clean) →
  (RegionGenero.INDICE_DIVERSIDAD e1 <= RegionGenero.INDICE_DIVERSIDAD e2)%Q →
  RegionGenero.NIVEL_DIVERSIDAD e1 = Some n1 →
  RegionGenero.NIVEL_DIVERSIDAD e2 = Some n2 →
  (severidad n1 ≤ severidad n2)%nat.
Proof.
  intros He1 He2 Hle H1 H2.
  apply elem_of_stats_region in He1 as (_ & _ & _ & _ & _ & E1).
  apply elem_of_stats_region in He2 as (_ & _ & _ & _ & _ & E2).
  rewrite E1 in H1. rewrite E2 in H2.
  destruct (nivel_diversidad_casos (RegionGenero.INDICE_DIVERSIDAD e1))
    as [[? N1]|[(? & ? & N1)|[(? & ? & N1)|[(? & ? & N1)|[? N1]]]]];
  destruct (nivel_diversidad_casos (RegionGenero.INDICE_DIVERSIDAD e2))
    as [[? N2]|[(? & ? & N2)|[(? & ? & N2)|[(? & ? & N2)|[? N2]]]]];
  rewrite N1 in H1; rewrite N2 in H2; simplify_eq; simpl;
    try lia; exfalso; lra.
Qed.

(** ** A region with more than 20000 genres *)










(** ** The example of the specification *)

Example tabla_contingencia_ejemplo :
  RegionGenero.tabla_contingencia ejemplo
  = mkTabla ["RegionA"; "RegionB"] ["Comedy"; "Drama"] [[2; 1]; [0; 1]].
Proof. vm_compute. reflexivity. Qed.

Example tabla_porcentajes_ejemplo :
  Forall2 (Forall2 Qeq)
    (t_values (RegionGenero.tabla_porcentajes
                 (RegionGenero.tabla_contingencia ejemplo)))
    [[6667 # 100; 3333 # 100]; [0; 100]]%Q.
Proof. vm_compute. repeat constructor. Qed.

(** In RegionB only Drama occurs: its index is 10000. *)
Lemma indice_de_fila_uniforme_witness :
  ∃ e, RegionGenero.r_stats_region (RegionGenero.agregar ejemplo) !! 1%nat
       = Some e ∧
       (RegionGenero.INDICE_DIVERSIDAD e == 10000)%Q.
Proof.
  eexists. split; [vm_compute; reflexivity|].
  refine (proj1 (indice_de_fila_uniforme ejemplo _ [0; 1] 1 _ _ _ _) _).
  - apply list_elem_of_lookup. exists 1%nat. vm_compute. reflexivity.
  - vm_compute. reflexivity.
  - lia.
  - constructor; [left; reflexivity|].
    constructor; [right; reflexivity|]. constructor.
  - reflexivity.
Defined.


(** Norte, with index 1250, is High; Sur, with index 10000, is Low. *)
Lemma nivel_monotono_witness :
  ∃ e1 e2,
    RegionGenero.r_stats_region (RegionGenero.agregar ejemplo_niveles) !! 0%nat
    = Some e1 ∧
    RegionGenero.r_stats_region (RegionGenero.agregar ejemplo_niveles) !! 1%nat
    = Some e2 ∧
    (RegionGenero.INDICE_DIVERSIDAD e1 == 1250)%Q ∧
    (RegionGenero.INDICE_DIVERSIDAD e2 == 10000)%Q ∧
    (severidad Alta_Diversidad ≤ severidad Baja_Diversidad)%nat.
Proof.
  eexists. eexists. split; [vm_compute; reflexivity|].
  split; [vm_compute; reflexivity|].
  split; [vm_compute; reflexivity|]. split; [vm_compute; reflexivity|].
  refine (nivel_monotono ejemplo_niveles _ _ _ _ _ _ _ _ _).
  - apply list_elem_of_lookup. exists 0%nat. vm_compute. reflexivity.
  - apply list_elem_of_lookup. exists 1%nat. vm_compute. reflexivity.
  - vm_compute. discriminate.
  - vm_compute. reflexivity.
  - vm_compute. reflexivity.
Defined.

(** ** Order of occurrence *)

Section antes.
Context {A : Type}.
Implicit Types (l : list A) (a b x : A).










End antes.

(** ** Sorting a series *)

Lemma elem_of_insertar_desc x y l : y ∈ insertar_desc x l ↔ y = x ∨ y ∈ l.
Proof.
  induction l as [|z l IH]; simpl.
  - set_solver.
  - destruct (x.2 <? z.2); [|by rewrite !elem_of_cons].
    rewrite !elem_of_cons, IH. tauto.
Qed.

Lemma StronglySorted_insertar_desc x l :
  StronglySorted desc l → StronglySorted desc (insertar_desc x l).
Proof.
  induction 1 as [|z l Hl IH Hz]; simpl.
  - repeat constructor.
  - destruct (Z.ltb_spec x.2 z.2) as [Hlt|Hge].
    + constructor; [done|]. apply Forall_forall. intros y Hy.
      apply elem_of_insertar_desc in Hy as [->|Hy].
      * unfold desc. lia.
      * by apply (proj1 (Forall_forall _ _) Hz).
    + constructor; [by constructor|]. constructor; [done|].
      eapply Forall_impl; [exact Hz|]. unfold desc. intros y Hy. lia.
Qed.

Lemma StronglySorted_ordenar_desc s : StronglySorted desc (ordenar_desc s).
Proof.
  induction s as [|x s IH]; [constructor|].
  by apply StronglySorted_insertar_desc.
Qed.



Lemma elem_of_ordenar_desc s y : y ∈ ordenar_desc s ↔ y ∈ s.
Proof.
  induction s as [|x s IH]; [done|]. cbn [ordenar_desc foldr].
  fold (ordenar_desc s). rewrite elem_of_insertar_desc, elem_of_cons, IH. done.
Qed.


(** ** The ranking of a region *)

Lemma loc_None {A} (t : Tabla A) r : r ∉ t_index t → loc t r = None.
Proof.
  intros Hr. destruct (loc t r) as [fila|] eqn:H; [|done].
  by apply loc_is_Some in H as [? _].
Qed.

Lemma serie_de_crosstab regs r :
  r ∈ regs.*1 →
  serie_de (crosstab regs) r
  = (λ g, (g, contar r g regs)) <$> unicos_ordenados regs.*2.
Proof.
  intros Hr. unfold serie_de. rewrite loc_crosstab by done. simpl.
  etrans; [apply zip_with_fmap_r | apply zip_with_diag].
Qed.

Lemma serie_de_fuera regs r : r ∉ regs.*1 → serie_de (crosstab regs) r = [].
Proof.
  intros Hr. unfold serie_de. rewrite loc_None by (by rewrite index_crosstab).
  simpl. by destruct (unicos_ordenados regs.*2).
Qed.

Lemma top3_de_region_REGION tc r :
  Forall (λ f, RegionGenero.top_REGION f = r) (RegionGenero.top3_de_region tc r).
Proof.
  apply Forall_forall. intros f Hf. apply list_elem_of_lookup in Hf as [i Hi].
  unfold RegionGenero.top3_de_region in Hi. rewrite list_lookup_imap in Hi.
  destruct (nlargest 3 _ !! i); simplify_eq/=. done.
Qed.

Lemma filter_top_generos (tc : Tabla Z) (idx : list string) r :
  NoDup idx →
  filter (λ f, RegionGenero.top_REGION f = r) (idx ≫= RegionGenero.top3_de_region tc)
  = if decide (r ∈ idx) then RegionGenero.top3_de_region tc r else [].
Proof.
  induction 1 as [|a idx Ha Hnd IH]; [done|].
  rewrite bind_cons, filter_app, IH.
  pose proof (top3_de_region_REGION tc a) as Hall.
  destruct (decide (a = r)) as [->|Hne].
  - rewrite (decide_False (P := r ∈ idx)) by done.
    rewrite (decide_True (P := r ∈ r :: idx)) by left.
    rewrite app_nil_r. clear -Hall.
    induction Hall as [|f l Hf _ IHl]; [done|].
    by rewrite filter_cons_True, IHl.
  - assert (E : filter (λ f, RegionGenero.top_REGION f = r)
                  (RegionGenero.top3_de_region tc a) = []).
    { clear -Hall Hne. induction Hall as [|f l Hf _ IHl]; [done|].
      rewrite filter_cons_False by congruence. done. }
    rewrite E. simpl. destruct (decide (r ∈ idx)) as [Hin|Hin].
    + rewrite (decide_True (P := r ∈ a :: idx)) by (by right). done.
    + rewrite (decide_False (P := r ∈ a :: idx)); [done|].
      rewrite elem_of_cons. intros [?|?]; done.
Qed.

(** The rows of [df_top] for one region are the ranking of that region. *)
Lemma top_generos_de_region regs r :
  filter (λ f, RegionGenero.top_REGION f = r)
    (RegionGenero.r_top_generos (RegionGenero.agregar regs))
  = RegionGenero.top3_de_region (crosstab regs) r.
Proof.
  unfold RegionGenero.agregar, RegionGenero.top_generos_por_region,
    RegionGenero.tabla_contingencia. cbn [RegionGenero.r_top_generos].
  rewrite filter_top_generos by apply NoDup_unicos_ordenados.
  destruct (decide _) as [Hin|Hout]; [done|].
  rewrite index_crosstab in Hout. unfold RegionGenero.top3_de_region.
  by rewrite serie_de_fuera.
Qed.



(** ** Devices per customer *)


Lemma size_list_to_set_pos (l : list string) :
  l ≠ [] → (1 ≤ size (list_to_set l : gset string))%nat.
Proof.
  destruct l as [|x l]; [done|]. intros _.
  assert (H : size (list_to_set (x :: l) : gset string) ≠ 0%nat).
  { apply size_non_empty_iff. set_solver. }
  lia.
Qed.

(** The devices of the records of one customer, in the order of the
    records. *)
Lemma acumular_spec (regs : list (string * string)) (k : string) :
  let ac := Dispositivos.acumular regs in
  let l := (filter (λ p, p.1 = k) regs).*2 in
  (l = [] →
   Dispositivos.clientes_dispositivos ac !! k = None ∧
   Dispositivos.clientes_registros ac !! k = None) ∧
  (l ≠ [] →
   Dispositivos.clientes_dispositivos ac !! k = Some (list_to_set l) ∧
   Dispositivos.clientes_registros ac !! k = Some l).
Proof.
  induction regs as [|row regs IH] using rev_ind.
  - simpl. split; [by rewrite !lookup_empty | done].
  - cbn zeta in *. unfold Dispositivos.acumular in *. rewrite foldl_app.
    cbn [foldl]. set (ac := foldl Dispositivos.registrar _ regs) in *.
    rewrite filter_app, fmap_app.
    set (l := (filter (λ p, p.1 = k) regs).*2) in *.
    destruct IH as [IH0 IH1]. unfold Dispositivos.registrar.
    cbn [Dispositivos.clientes_dispositivos Dispositivos.clientes_registros].
    destruct (decide (row.1 = k)) as [Hk|Hk].
    + rewrite filter_cons_True, filter_nil by done. subst k.
      rewrite !lookup_insert_eq. split; [by destruct l|]. intros _.
      destruct (decide (l = [])) as [Hl|Hl].
      * destruct (IH0 Hl) as [-> ->]. rewrite Hl. simpl.
        split; [f_equal; set_solver | done].
      * destruct (IH1 Hl) as [-> ->]. simpl.
        split; [by rewrite list_to_set_snoc_L | done].
    + rewrite filter_cons_False, filter_nil by done.
      rewrite !lookup_insert_ne by done. rewrite app_nil_r. done.
Qed.

Lemma elem_of_df_analisis (df : DataFrame) (f : Dispositivos.FilaAnalisis) :
  f ∈ Dispositivos.df_analisis df →
  let l := (filter (λ p, p.1 = Dispositivos.CUSTOMER_ID f)
              (Dispositivos.df_clean df)).*2 in
  l ≠ [] ∧
  Dispositivos.CANTIDAD_DISPOSITIVOS f = size (list_to_set l : gset string) ∧
  Dispositivos.TOTAL_VISUALIZACIONES f = length l ∧
  Dispositivos.USA_MULTIPLES_DISPOSITIVOS f
  = if decide (1 < Dispositivos.CANTIDAD_DISPOSITIVOS f)%nat then "Sí" else "No".
Proof.
  unfold Dispositivos.df_analisis, Dispositivos.sort_values_desc.
  rewrite merge_sort_Permutation. unfold Dispositivos.analisis_data.
  intros Hf. apply list_elem_of_fmap in Hf as [[k s] [-> Hks]].
  apply elem_of_map_to_list in Hks. simpl.
  destruct (acumular_spec (Dispositivos.df_clean df) k) as [H0 H1].
  set (l := (filter (λ p, p.1 = k) (Dispositivos.df_clean df)).*2) in *.
  destruct (decide (l = [])) as [Hl|Hl].
  { destruct (H0 Hl) as [E _]. by rewrite E in Hks. }
  destruct (H1 Hl) as [E1 E2]. rewrite E1 in Hks. injection Hks as <-.
  rewrite E2. done.
Qed.



(** ** Missing columns *)

Lemma columna_faltante_Some requeridas df :
  (∃ c, c ∈ requeridas ∧ c ∉ columns df) →
  ∃ c, columna_faltante requeridas df = Some c ∧
       c ∈ requeridas ∧ c ∉ columns df.
Proof.
  intros (c & Hc & Hn). unfold columna_faltante.
  destruct (list_find (λ c, c ∉ columns df) requeridas) as [[i c']|] eqn:Hf.
  - apply list_find_Some in Hf as (Hi & Hc' & _). exists c'.
    split; [done|]. split; [|done]. by eapply list_elem_of_lookup_2.
  - apply list_find_None in Hf.
    by apply (proj1 (Forall_forall _ _) Hf c Hc) in Hn.
Qed.

Lemma leer_hoja_traza libro tr0 (df : DataFrame) :
  leer_hoja libro = (tr0, inr (Some df)) →
  tr0 = [] ∨ tr0 = [Print HojaNoEncontrada].
Proof.
  unfold leer_hoja. destruct (snd <$> head _) as [d|].
  - intros [= <- _]. by left.
  - destruct (libro !! 1%nat) as [[n d]|]; cbn; intros [= <- E]; by right.
Qed.

(** C6. When the sheet lacks a required column, the region and genre
    analysis and the device analysis print the missing column (the first one
    in the order of the required columns) and the columns of the sheet, and
    return nothing: no report is printed and no file is written. *)
Theorem columna_faltante_aborta
    (fs : SistemaArchivos) (archivo_excel archivo_salida : string)
    (libro : Libro) (df : DataFrame) (tr0 : list evento) :
  fs archivo_excel = Some libro →
  leer_hoja libro = (tr0, inr (Some df)) →
  (tr0 = [] ∨ tr0 = [Print HojaNoEncontrada]) ∧
  ((∃ c, c ∈ RegionGenero.columnas_requeridas ∧ c ∉ columns df) →
   ∃ c, c ∈ RegionGenero.columnas_requeridas ∧ (c ∉ columns df) ∧
     RegionGenero.analizar_relacion_region_genero fs archivo_excel archivo_salida
     = (tr0 ++ [Print (ColumnaNoEncontrada c);
                Print (ColumnasDisponibles (columns df))], inr None)) ∧
  ((∃ c, c ∈ Dispositivos.columnas_requeridas ∧ c ∉ columns df) →
   ∃ c, c ∈ Dispositivos.columnas_requeridas ∧ (c ∉ columns df) ∧
     Dispositivos.analizar_dispositivos_por_cliente fs archivo_excel archivo_salida
     = (tr0 ++ [Print (ColumnaNoEncontrada c);
                Print (ColumnasDisponibles (columns df))], inr None)).
Proof.
  intros Hfs Hleer. split; [by eapply leer_hoja_traza|]. split.
  - intros Hfalta.
    destruct (columna_faltante_Some _ _ Hfalta) as (c & Hc & Hin & Hout).
    exists c. split; [done|]. split; [done|].
    unfold RegionGenero.analizar_relacion_region_genero, RegionGenero.cuerpo.
    rewrite Hfs. unfold mbind, efecto_bind. rewrite Hleer, Hc. done.
  - intros Hfalta.
    destruct (columna_faltante_Some _ _ Hfalta) as (c & Hc & Hin & Hout).
    exists c. split; [done|]. split; [done|].
    unfold Dispositivos.analizar_dispositivos_por_cliente, Dispositivos.cuerpo.
    rewrite Hfs. unfold mbind, efecto_bind. rewrite Hleer, Hc. done.
Qed.

Ltac decidir := apply (bool_decide_unpack _); vm_compute; exact I.

(** A sheet with the columns REGION and CUSTOMER_ID only. *)
Lemma columna_faltante_aborta_witness :
  (∃ c, c ∈ RegionGenero.columnas_requeridas ∧ (c ∉ columns hoja_sin_columnas) ∧
     RegionGenero.analizar_relacion_region_genero fs_sin_columnas
       "datos.xlsx" "salida.xlsx"
     = ([] ++ [Print (ColumnaNoEncontrada c);
               Print (ColumnasDisponibles (columns hoja_sin_columnas))],
        inr None)) ∧
  (∃ c, c ∈ Dispositivos.columnas_requeridas ∧ (c ∉ columns hoja_sin_columnas) ∧
     Dispositivos.analizar_dispositivos_por_cliente fs_sin_columnas
       "datos.xlsx" "salida.xlsx"
     = ([] ++ [Print (ColumnaNoEncontrada c);
               Print (ColumnasDisponibles (columns hoja_sin_columnas))],
        inr None)).
Proof.
  pose proof (columna_faltante_aborta fs_sin_columnas "datos.xlsx" "salida.xlsx"
                [("Dataset", hoja_sin_columnas)] hoja_sin_columnas []
                eq_refl eq_refl) as (_ & H1 & H2).
  split.
  - apply H1. exists "GENRE". split; decidir.
  - apply H2. exists "DEVICE". split; decidir.
Defined.

(** The two runs on that sheet, event by event. *)
Example sin_columnas_region_genero :
  RegionGenero.analizar_relacion_region_genero fs_sin_columnas
    "datos.xlsx" "salida.xlsx"
  = ([Print (ColumnaNoEncontrada "GENRE");
      Print (ColumnasDisponibles ["REGION"; "CUSTOMER_ID"])], inr None).
Proof. vm_compute. reflexivity. Qed.

Example sin_columnas_dispositivos :
  Dispositivos.analizar_dispositivos_por_cliente fs_sin_columnas
    "datos.xlsx" "salida.xlsx"
  = ([Print (ColumnaNoEncontrada "DEVICE");
      Print (ColumnasDisponibles ["REGION"; "CUSTOMER_ID"])], inr None).
Proof. vm_compute. reflexivity. Qed.

(** ** No cleaned record *)

(** C7. On a sheet with the column CUSTOMER_ID and no record, the customer
    analysis prints its header, the absence of duplicates and the banner of
    the summary, then divides by the number of distinct customers, which is
    0: the ZeroDivisionError reaches the general handler, which prints it as
    an unexpected error; no validation of the empty input takes place and no
    file is written. *)
Theorem clientes_sin_registros :
  Clientes.analizar_customer_ids fs_sin_registros "datos.xlsx"
  = ([Print (Informe "ANÁLISIS DE CUSTOMER_ID" [0; 0; 0]);
      Print (Informe "No se encontraron CUSTOMER_IDs duplicados" []);
      Print (Informe "RESUMEN ESTADÍSTICO" []);
      Print (ErrorInesperado ZeroDivisionError)], inr ()).
Proof. vm_compute. reflexivity. Qed.

(** The same run for any sheet without a customer identifier. *)
Lemma clientes_sin_identificadores
    (fs : SistemaArchivos) (archivo_excel : string)
    (libro : Libro) (df : DataFrame) (tr0 : list evento) :
  fs archivo_excel = Some libro →
  leer_hoja libro = (tr0, inr (Some df)) →
  "CUSTOMER_ID" ∈ columns df →
  Clientes.customer_ids df = [] →
  Clientes.analizar_customer_ids fs archivo_excel
  = (tr0 ++ [Print (Informe "ANÁLISIS DE CUSTOMER_ID" [0; 0; 0]);
             Print (Informe "No se encontraron CUSTOMER_IDs duplicados" []);
             Print (Informe "RESUMEN ESTADÍSTICO" []);
             Print (ErrorInesperado ZeroDivisionError)], inr ()).
Proof.
  intros Hfs Hleer Hcol Hids.
  unfold Clientes.analizar_customer_ids, Clientes.cuerpo.
  rewrite Hfs. unfold mbind, efecto_bind. rewrite Hleer.
  rewrite decide_False by (intros H; by apply H).
  rewrite Hids. cbv -[app]. by rewrite <- app_assoc.
Qed.

(** With at least one customer identifier the division is defined. *)
Lemma div_python_definida (a b : Z) :
  b ≠ 0 → div_python a b = ([], inr (inject_Z a / inject_Z b)%Q).
Proof. intros Hb. unfold div_python. by rewrite decide_False. Qed.

(** The region and genre analysis on a sheet without records: the header
    is printed, and then the run ends in the general handler, with no file
    written. *)
Example region_genero_sin_registros :
  RegionGenero.analizar_relacion_region_genero
    (λ _, Some [("Dataset", mkDataFrame ["REGION"; "GENRE"] [])])
    "datos.xlsx" "salida.xlsx"
  = ([Print (Informe "ANÁLISIS DE RELACIÓN REGIÓN-GÉNERO" [0; 0; 0]);
      Print (Informe "TOP 1 GÉNERO POR REGIÓN" []);
      Print (ErrorInesperado (KeyError "RANKING"))], inr None).
Proof. vm_compute. reflexivity. Qed.

(** ** Cleaning *)

Lemma primero_lstrip s c : primero (lstrip s) = Some c → es_espacio c = false.
Proof.
  induction s as [|a s IH]; [done|]. simpl.
  destruct (es_espacio a) eqn:Ea; [done|]. simpl. by intros [= <-].
Qed.

Lemma ultimo_rstrip s c : ultimo (rstrip s) = Some c → es_espacio c = false.
Proof.
  induction s as [|a s IH]; [done|]. simpl.
  destruct (rstrip s) as [|b r] eqn:Er.
  - destruct (es_espacio a) eqn:Ea; [done|]. simpl. by intros [= <-].
  - simpl. exact IH.
Qed.

Lemma primero_rstrip s c : primero (rstrip s) = Some c → primero s = Some c.
Proof.
  destruct s as [|a s]; [done|]. simpl.
  destruct (rstrip s); [destruct (es_espacio a)|]; done.
Qed.

Lemma recortada_strip s : recortada (strip s).
Proof.
  split; intros c H.
  - by eapply primero_lstrip, primero_rstrip.
  - by eapply ultimo_rstrip.
Qed.

(** In the region and genre analysis, every cleaned record has two texts
    that are not empty, are not the text of a missing value, and have no
    whitespace at either end. *)
Lemma df_clean_region_genero (df : DataFrame) (p : string * string) :
  p ∈ RegionGenero.df_clean df →
  (p.1 ≠ EmptyString ∧ p.1 ≠ "nan" ∧ recortada p.1) ∧
  (p.2 ≠ EmptyString ∧ p.2 ≠ "nan" ∧ recortada p.2).
Proof.
  unfold RegionGenero.df_clean, RegionGenero.df_clean_celdas. cbn zeta.
  intros Hp. apply list_elem_of_fmap in Hp as [[c1 c2] [-> Hc]].
  apply list_elem_of_filter in Hc as [[Hg1 Hg2] Hc].
  apply list_elem_of_filter in Hc as [[Hr1 Hr2] Hc].
  apply list_elem_of_filter in Hc as [_ Hc].
  apply list_elem_of_fmap in Hc as [[d1 d2] [[= -> ->] Hd]].
  apply list_elem_of_fmap in Hd as [[e1 e2] [[= -> ->] _]].
  simpl in *. unfold astype_str_strip in *.
  repeat split; try apply recortada_strip; congruence.
Qed.

(** In the recurrence analysis, every cleaned record has the number that
    [to_numeric] reads in some cell of the sheet. *)
Lemma df_clean_recurrencia (numero_de_texto : string → option Q)
    (df : DataFrame) (p : string * Q) :
  p ∈ Recurrencia.df_clean numero_de_texto df →
  recortada p.1 ∧
  ∃ c, c ∈ columna df "SCREENTIME" ∧
       Recurrencia.to_numeric numero_de_texto c = Some p.2.
Proof.
  unfold Recurrencia.df_clean. cbn zeta. intros Hp.
  apply list_elem_of_omap in Hp as ([c q] & Hc & Hq). simpl in Hq.
  destruct (es_nan c) eqn:Ec; [done|]. destruct q as [q|]; [|done].
  injection Hq as <-.
  apply list_elem_of_fmap in Hc as [[d1 d2] [[= E1 E2] Hd]].
  apply list_elem_of_fmap in Hd as [[e1 e2] [[= -> ->] He]].
  apply list_elem_of_fmap in He as [fila [[= -> ->] Hfila]].
  simpl in *. subst c. split; [apply recortada_strip|].
  eexists. split; [|symmetry; exact E2]. unfold columna.
  apply list_elem_of_fmap. by exists fila.
Qed.

(** C8. In the device analysis a record with a blank customer and a
    record with a missing customer are both retained by the cleaning, the
    first with an empty CUSTOMER_ID and the second with the text [nan]. *)
Theorem df_clean_dispositivos_blancos :
  Dispositivos.df_clean hoja_con_blancos
  = [(EmptyString, "TV"); ("nan", "Phone")].
Proof. vm_compute. reflexivity. Qed.


(** The cleaning of the shows analysis keeps the same invariant. *)
Lemma df_clean_shows (df : DataFrame) (p : string * string) :
  p ∈ Shows.df_clean df →
  (p.1 ≠ EmptyString ∧ p.1 ≠ "nan" ∧ recortada p.1) ∧
  (p.2 ≠ EmptyString ∧ p.2 ≠ "nan" ∧ recortada p.2).
Proof.
  unfold Shows.df_clean, Shows.df_clean_celdas. cbn zeta.
  intros Hp. apply list_elem_of_fmap in Hp as [[c1 c2] [-> Hc]].
  apply list_elem_of_filter in Hc as [[Hg1 Hg2] Hc].
  apply list_elem_of_filter in Hc as [[Hr1 Hr2] Hc].
  apply list_elem_of_filter in Hc as [_ Hc].
  apply list_elem_of_fmap in Hc as [[d1 d2] [[= -> ->] Hd]].
  apply list_elem_of_fmap in Hd as [[e1 e2] [[= -> ->] _]].
  simpl in *. unfold astype_str_strip in *.
  repeat split; try apply recortada_strip; congruence.
Qed.

(** The genres analysis trims its texts and keeps the empty ones. *)
Lemma generos_recortados (df : DataFrame) (g : string) :
  g ∈ Generos.generos df → recortada g.
Proof.
  intros Hg. apply list_elem_of_fmap in Hg as [c [-> _]].
  apply recortada_strip.
Qed.

Example generos_con_blanco :
  Generos.generos (mkDataFrame ["GENRE"] [[Texto " "]; [NaN]; [Texto "Drama "]])
  = [EmptyString; "Drama"].
Proof. vm_compute. reflexivity. Qed.

(** The customers analysis does not trim its identifiers. *)
Example customer_ids_sin_recortar :
  Clientes.customer_ids (mkDataFrame ["CUSTOMER_ID"] [[Texto " c1 "]; [NaN]])
  = [" c1 "].
Proof. vm_compute. reflexivity. Qed.

(** * Further properties of the region and genre analysis *)

#[global] Instance cadena_le_total : Total cadena_le.
Proof. intros a b. apply String.leb_total. Qed.



(** X2. In every row of [stats_region] the total is the number of cleaned
    records of the region, and it is at least 1: the divisions by a row
    total (lines 71, 85 and 104) never divide by zero. *)
Theorem total_de_region
    (df_clean : list (string * string)) (e : RegionGenero.EstadisticaRegion) :
  e ∈ RegionGenero.r_stats_region (RegionGenero.agregar df_clean) →
  RegionGenero.TOTAL_VISUALIZACIONES e
  = registros_de (RegionGenero.REGION e) df_clean ∧
  1 ≤ RegionGenero.TOTAL_VISUALIZACIONES e.
Proof.
  intros He. apply elem_of_stats_region in He as (fila & Hr & Hloc & -> & _).
  rewrite (suma_fila_crosstab _ _ _ Hloc). split; [done|].
  pose proof (registros_de_pos _ _ Hr). lia.
Qed.

Lemma total_de_region_witness :
  ∃ e, RegionGenero.r_stats_region (RegionGenero.agregar ejemplo) !! 0%nat
       = Some e ∧
       RegionGenero.REGION e = "RegionA" ∧
       RegionGenero.TOTAL_VISUALIZACIONES e = 3.
Proof.
  eexists. split; [vm_compute; reflexivity|]. split; [reflexivity|].
  refine (eq_trans (proj1 (total_de_region ejemplo _ _)) _).
  - apply list_elem_of_lookup. exists 0%nat. vm_compute. reflexivity.
  - vm_compute. reflexivity.
Defined.

Lemma REGION_stats_region (regs : list (string * string)) :
  RegionGenero.REGION <$> RegionGenero.r_stats_region (RegionGenero.agregar regs)
  = unicos_ordenados regs.*1.
Proof.
  rewrite stats_region_crosstab.
  induction (unicos_ordenados regs.*1) as [|r l IH]; [done|].
  rewrite !fmap_cons. f_equal. exact IH.
Qed.

(** X3. The rows of [stats_region] are the regions of the cleaned
    records, each one once, in increasing order of the label. *)
Theorem regiones_de_stats_region (df_clean : list (string * string)) :
  let regiones :=
    RegionGenero.REGION <$>
      RegionGenero.r_stats_region (RegionGenero.agregar df_clean) in
  NoDup regiones ∧ Sorted cadena_le regiones ∧
  ∀ r, r ∈ regiones ↔ r ∈ df_clean.*1.
Proof.
  cbn zeta. rewrite REGION_stats_region.
  split; [apply NoDup_unicos_ordenados|]. split.
  - apply Sorted_merge_sort. apply _.
  - apply elem_of_unicos_ordenados.
Qed.

Lemma stats_region_fila regs (e : RegionGenero.EstadisticaRegion) :
  e ∈ RegionGenero.r_stats_region (RegionGenero.agregar regs) →
  ∃ r, r ∈ regs.*1 ∧
       e = RegionGenero.stats_de_fila (crosstab regs)
             (RegionGenero.tabla_porcentajes (crosstab regs)) r
             ((λ b, contar r b regs) <$> unicos_ordenados regs.*2).
Proof.
  rewrite stats_region_crosstab. intros He.
  apply list_elem_of_fmap in He as [r [-> Hr]].
  rewrite elem_of_unicos_ordenados in Hr. by exists r.
Qed.

Lemma contar_pos_iff a b regs : 0 < contar a b regs ↔ (a, b) ∈ regs.
Proof.
  induction regs as [|p regs IH].
  - rewrite contar_nil, elem_of_nil. lia.
  - rewrite contar_cons, elem_of_cons. pose proof (contar_nonneg a b regs).
    destruct (decide (p = (a, b))) as [->|Hne].
    + split; [by left | lia].
    + rewrite <- IH. split; [intros; right; lia|].
      intros [?|?]; [congruence | lia].
Qed.

Lemma length_filter_fmap {A B} (f : A → B) (P : B → Prop)
    `{∀ y, Decision (P y)} (l : list A) :
  length (filter P (f <$> l)) = length (filter (λ x, P (f x)) l).
Proof.
  induction l as [|x l IH]; [done|].
  rewrite fmap_cons, !filter_cons. destruct (decide (P (f x))); simpl; by rewrite IH.
Qed.

(** The genres with a positive count in the row of a region are the
    distinct genres of the records of the region. *)
Lemma generos_con_registros regs r :
  filter (λ g, 0 < contar r g regs) (unicos_ordenados regs.*2)
  ≡ₚ remove_dups (filter (λ p, p.1 = r) regs).*2.
Proof.
  apply NoDup_Permutation.
  - apply NoDup_filter, NoDup_unicos_ordenados.
  - apply NoDup_remove_dups.
  - intros g. rewrite list_elem_of_filter, elem_of_unicos_ordenados,
      elem_of_remove_dups, contar_pos_iff, !list_elem_of_fmap. split.
    + intros [Hin _]. exists (r, g). split; [done|].
      by apply list_elem_of_filter.
    + intros ([a h] & -> & Hp). apply list_elem_of_filter in Hp as [Ha Hp].
      simpl in *. subst a. split; [done|]. by exists (r, h).
Qed.

(** X4. The number of distinct genres of a row of [stats_region] is the
    number of distinct genres among the cleaned records of the region; it
    is at least 1 and at most the number of columns of the contingency
    table. *)
Theorem generos_unicos_de_region
    (df_clean : list (string * string)) (e : RegionGenero.EstadisticaRegion) :
  e ∈ RegionGenero.r_stats_region (RegionGenero.agregar df_clean) →
  RegionGenero.GENEROS_UNICOS e
  = Z.of_nat (length (remove_dups
       (filter (λ p, p.1 = RegionGenero.REGION e) df_clean).*2)) ∧
  1 ≤ RegionGenero.GENEROS_UNICOS e ∧
  RegionGenero.GENEROS_UNICOS e
  ≤ Z.of_nat (length (t_columns (RegionGenero.tabla_contingencia df_clean))).
Proof.
  intros He. apply stats_region_fila in He as (r & Hr & ->).
  cbn [RegionGenero.GENEROS_UNICOS RegionGenero.REGION
       RegionGenero.stats_de_fila].
  rewrite length_filter_fmap.
  rewrite (Permutation_length (generos_con_registros df_clean r)).
  split; [done|]. split.
  - apply list_elem_of_fmap in Hr as [p [-> Hp]].
    assert (Hin : p.2 ∈ remove_dups (filter (λ q, q.1 = p.1) df_clean).*2).
    { apply elem_of_remove_dups, list_elem_of_fmap. exists p.
      split; [done|]. by apply list_elem_of_filter. }
    destruct (remove_dups _); [by apply elem_of_nil in Hin | simpl; lia].
  - rewrite <- (Permutation_length (generos_con_registros df_clean r)).
    pose proof (length_filter (λ g, 0 < contar r g df_clean)
                  (unicos_ordenados df_clean.*2)).
    unfold RegionGenero.tabla_contingencia, crosstab. cbn [t_columns]. lia.
Qed.

Lemma generos_unicos_de_region_witness :
  ∃ e, RegionGenero.r_stats_region (RegionGenero.agregar ejemplo) !! 1%nat
       = Some e ∧
       RegionGenero.REGION e = "RegionB" ∧
       RegionGenero.GENEROS_UNICOS e = 1.
Proof.
  eexists. split; [vm_compute; reflexivity|]. split; [reflexivity|].
  refine (eq_trans (proj1 (generos_unicos_de_region ejemplo _ _)) _).
  - apply list_elem_of_lookup. exists 1%nat. vm_compute. reflexivity.
  - vm_compute. reflexivity.
Defined.




Lemma length_insertar_desc x l : length (insertar_desc x l) = S (length l).
Proof.
  induction l as [|y l IH]; [done|]. simpl.
  destruct (x.2 <? y.2); simpl; by rewrite ?IH.
Qed.

Lemma length_ordenar_desc s : length (ordenar_desc s) = length s.
Proof.
  induction s as [|x s IH]; [done|]. cbn [ordenar_desc foldr].
  fold (ordenar_desc s). by rewrite length_insertar_desc, IH.
Qed.



(** X6. The ranking of a region with records has three entries, or as many
    as there are distinct genres in the whole of the cleaned records when
    these are fewer than three: it is filled from all the columns of the
    contingency table, not only from the genres of the region. *)
Theorem longitud_del_ranking
    (df_clean : list (string * string)) (region : string) :
  region ∈ df_clean.*1 →
  length (filter (λ f, RegionGenero.top_REGION f = region)
            (RegionGenero.r_top_generos (RegionGenero.agregar df_clean)))
  = (3 `min` length (remove_dups df_clean.*2))%nat.
Proof.
  intros Hr. rewrite top_generos_de_region.
  unfold RegionGenero.top3_de_region. rewrite length_imap.
  unfold nlargest. rewrite length_take, length_ordenar_desc.
  rewrite serie_de_crosstab by done. rewrite length_fmap.
  by rewrite (Permutation_length (unicos_ordenados_perm _)).
Qed.

Lemma longitud_del_ranking_witness :
  length (filter (λ f, RegionGenero.top_REGION f = "Sur")
            (RegionGenero.r_top_generos (RegionGenero.agregar ejemplo_niveles)))
  = 3%nat ∧
  RegionGenero.top_VISUALIZACIONES <$>
    filter (λ f, RegionGenero.top_REGION f = "Sur")
      (RegionGenero.r_top_generos (RegionGenero.agregar ejemplo_niveles))
  = [1; 0; 0].
Proof.
  split; [|vm_compute; reflexivity].
  refine (eq_trans (longitud_del_ranking ejemplo_niveles "Sur" _) _).
  - decidir.
  - vm_compute. reflexivity.
Defined.

(** * What a run of the region and genre analysis writes *)

Lemma leer_hoja_casos (libro : Libro) :
  (∃ df, leer_hoja libro = ([], inr (Some df))) ∨
  (∃ df, leer_hoja libro = ([Print HojaNoEncontrada], inr (Some df))) ∨
  leer_hoja libro = ([Print ErrorLectura], inr None).
Proof.
  unfold leer_hoja. destruct (snd <$> head _) as [d|].
  - left. by exists d.
  - destruct (libro !! 1%nat) as [[n d]|]; cbn.
    + right. left. by exists d.
    + right. by right.
Qed.



Lemma escrituras_app (tr tr' : list evento) :
  escrituras (tr ++ tr') = escrituras tr ++ escrituras tr'.
Proof.
  induction tr as [|e tr IH]; [done|].
  destruct e; simpl; by rewrite ?IH.
Qed.

Ltac no_impreso :=
  rewrite ?elem_of_app, ?elem_of_cons, ?elem_of_nil; intuition discriminate.




(** * The entry point of the region and genre script *)



(** * The table and the statistics of the device analysis *)

#[global] Instance mas_dispositivos_total : Total Dispositivos.mas_dispositivos.
Proof. intros a b. unfold Dispositivos.mas_dispositivos. lia. Qed.

#[global] Instance mas_dispositivos_trans :
  Transitive Dispositivos.mas_dispositivos.
Proof. intros a b c. unfold Dispositivos.mas_dispositivos. lia. Qed.

(** The customers of the dictionary are the customers of the records. *)
Lemma clientes_de_acumular (regs : list (string * string)) (k : string) :
  k ∈ (map_to_list (Dispositivos.clientes_dispositivos
                      (Dispositivos.acumular regs))).*1
  ↔ k ∈ regs.*1.
Proof.
  destruct (acumular_spec regs k) as [Hnil Hcons]. cbn zeta in *.
  rewrite list_elem_of_fmap. split.
  - intros ([k' s] & -> & Hks). apply elem_of_map_to_list in Hks. simpl in *.
    destruct ((filter (λ p, p.1 = k') regs).*2) as [|d l] eqn:Hf.
    + destruct Hnil as [Hn _]; [done|]. congruence.
    + assert (Hp : ∃ p, p ∈ filter (λ p : string * string, p.1 = k') regs).
      { destruct (filter (λ p : string * string, p.1 = k') regs) as [|p l'];
          [done|]. exists p. left. }
      destruct Hp as [p Hp]. apply list_elem_of_filter in Hp as [<- Hp].
      apply list_elem_of_fmap. by exists p.
  - intros Hk. apply list_elem_of_fmap in Hk as (p & -> & Hp).
    destruct Hcons as [Hd _].
    { intros Hf. apply fmap_nil_inv in Hf.
      assert (Hin : p ∈ filter (λ q : string * string, q.1 = p.1) regs)
        by (by apply list_elem_of_filter).
      rewrite Hf in Hin. by apply elem_of_nil in Hin. }
    exists (p.1, list_to_set (filter (λ q, q.1 = p.1) regs).*2). split; [done|].
    by apply elem_of_map_to_list.
Qed.

Lemma CUSTOMER_ID_analisis_data (ac : Dispositivos.Acumulado) :
  Dispositivos.CUSTOMER_ID <$> Dispositivos.analisis_data ac
  = (map_to_list (Dispositivos.clientes_dispositivos ac)).*1.
Proof.
  unfold Dispositivos.analisis_data.
  induction (map_to_list _) as [|kv l IH]; [done|].
  rewrite !fmap_cons. f_equal. exact IH.
Qed.

(** X9. The table of the device analysis has exactly one row for each
    customer of the cleaned records, and its rows come in non-increasing
    order of the number of devices. *)
Theorem clientes_de_df_analisis (df : DataFrame) :
  let tabla := Dispositivos.df_analisis df in
  NoDup (Dispositivos.CUSTOMER_ID <$> tabla) ∧
  (∀ k, k ∈ Dispositivos.CUSTOMER_ID <$> tabla ↔ k ∈ (Dispositivos.df_clean df).*1) ∧
  StronglySorted Dispositivos.mas_dispositivos tabla.
Proof.
  cbn zeta. unfold Dispositivos.df_analisis, Dispositivos.sort_values_desc.
  split_and!.
  - rewrite merge_sort_Permutation, CUSTOMER_ID_analisis_data.
    apply NoDup_fst_map_to_list.
  - intros k. rewrite merge_sort_Permutation, CUSTOMER_ID_analisis_data.
    apply clientes_de_acumular.
  - apply StronglySorted_merge_sort; apply _.
Qed.

Lemma suma_Permutation (l k : list Z) : l ≡ₚ k → suma l = suma k.
Proof. induction 1; csimpl; lia. Qed.




Lemma cantidad_de_dispositivos_pos (df : DataFrame) (f : Dispositivos.FilaAnalisis) :
  f ∈ Dispositivos.df_analisis df →
  (1 ≤ Dispositivos.CANTIDAD_DISPOSITIVOS f)%nat.
Proof.
  intros Hf. destruct (elem_of_df_analisis df f Hf) as (Hne & -> & _).
  by apply size_list_to_set_pos.
Qed.

Lemma particion_por_cantidad (l : list Dispositivos.FilaAnalisis) :
  Forall (λ f, (1 ≤ Dispositivos.CANTIDAD_DISPOSITIVOS f)%nat) l →
  (EstadisticasDispositivos.clientes_multiples l
   + EstadisticasDispositivos.clientes_un_dispositivo l
   = EstadisticasDispositivos.total_clientes l)%nat ∧
  (EstadisticasDispositivos.clientes_mas_de_dos l
   ≤ EstadisticasDispositivos.clientes_multiples l)%nat.
Proof.
  unfold EstadisticasDispositivos.clientes_multiples,
    EstadisticasDispositivos.clientes_un_dispositivo,
    EstadisticasDispositivos.clientes_mas_de_dos,
    EstadisticasDispositivos.total_clientes.
  induction 1 as [|f l Hf _ [IH1 IH2]]; [done|].
  rewrite !filter_cons.
  destruct (decide (1 < Dispositivos.CANTIDAD_DISPOSITIVOS f)%nat),
    (decide (Dispositivos.CANTIDAD_DISPOSITIVOS f = 1%nat)),
    (decide (2 < Dispositivos.CANTIDAD_DISPOSITIVOS f)%nat);
    simpl length; lia.
Qed.

(** X11. The statistics of the device analysis: the customers with several
    devices and the customers with one device make up all the customers (no
    row has zero devices), the customers with more than two devices are
    among those with several, the total is the number of distinct customers
    of the cleaned records, and the percentage of customers with several
    devices lies between 0 and 100. *)
Theorem estadisticas_de_dispositivos (df : DataFrame) :
  let tabla := Dispositivos.df_analisis df in
  (EstadisticasDispositivos.clientes_multiples tabla
   + EstadisticasDispositivos.clientes_un_dispositivo tabla
   = EstadisticasDispositivos.total_clientes tabla)%nat ∧
  (EstadisticasDispositivos.clientes_mas_de_dos tabla
   ≤ EstadisticasDispositivos.clientes_multiples tabla)%nat ∧
  EstadisticasDispositivos.total_clientes tabla
  = length (remove_dups (Dispositivos.df_clean df).*1) ∧
  (0 <= EstadisticasDispositivos.porcentaje_multiples tabla)%Q ∧
  (EstadisticasDispositivos.porcentaje_multiples tabla <= 100)%Q.
Proof.
  cbn zeta.
  destruct (particion_por_cantidad (Dispositivos.df_analisis df)) as [H1 H2].
  { apply Forall_forall. apply cantidad_de_dispositivos_pos. }
  split; [done|]. split; [done|]. split.
  - unfold EstadisticasDispositivos.total_clientes.
    rewrite <- (length_fmap Dispositivos.CUSTOMER_ID).
    apply Permutation_length, NoDup_Permutation.
    + unfold Dispositivos.df_analisis, Dispositivos.sort_values_desc.
      rewrite merge_sort_Permutation, CUSTOMER_ID_analisis_data.
      apply NoDup_fst_map_to_list.
    + apply NoDup_remove_dups.
    + intros k. rewrite elem_of_remove_dups.
      unfold Dispositivos.df_analisis, Dispositivos.sort_values_desc.
      rewrite merge_sort_Permutation, CUSTOMER_ID_analisis_data.
      apply clientes_de_acumular.
  - unfold EstadisticasDispositivos.porcentaje_multiples.
    destruct (decide _) as [Hpos|_]; [|split; lra].
    set (m := EstadisticasDispositivos.clientes_multiples _) in *.
    set (t := EstadisticasDispositivos.total_clientes _) in *.
    assert (Hm : (0 <= inject_Z (Z.of_nat m))%Q)
      by (change 0%Q with (inject_Z 0); rewrite <- Zle_Qle; lia).
    assert (Ht : (0 < inject_Z (Z.of_nat t))%Q)
      by (change 0%Q with (inject_Z 0); rewrite <- Zlt_Qlt; lia).
    assert (Hmt : (inject_Z (Z.of_nat m) <= inject_Z (Z.of_nat t))%Q)
      by (rewrite <- Zle_Qle; lia).
    assert (H0 : (0 <= inject_Z (Z.of_nat m) / inject_Z (Z.of_nat t))%Q)
      by (apply Qle_shift_div_l; lra).
    assert (H100 : (inject_Z (Z.of_nat m) / inject_Z (Z.of_nat t) <= 1)%Q)
      by (apply Qle_shift_div_r; lra).
    split; lra.
Qed.

(** * What a run of the device analysis writes *)








(** * The distribution of devices *)

Lemma length_filter_eq_NoDup (d : string) (l : list string) :
  NoDup l → length (filter (λ x, x = d) l) = if decide (d ∈ l) then 1%nat else 0%nat.
Proof.
  induction 1 as [|x l Hx _ IH]; [done|].
  rewrite filter_cons. destruct (decide (x = d)) as [->|Hne].
  - simpl length. rewrite IH, (decide_False (P := d ∈ l)) by done.
    by rewrite (decide_True (P := d ∈ d :: l)) by left.
  - rewrite IH. destruct (decide (d ∈ l)) as [Hin|Hout].
    + by rewrite (decide_True (P := d ∈ x :: l)) by (by right).
    + rewrite (decide_False (P := d ∈ x :: l)); [done|].
      intros [->|?]%elem_of_cons; done.
Qed.

(** A device occurs in the list of all devices once for each customer whose
    set holds it. *)
Lemma contar_en_todos_dispositivos (d : string) (l : list (string * gset string)) :
  length (filter (λ x, x = d) (l ≫= λ kv, elements kv.2))
  = length (filter (λ kv : string * gset string, d ∈ kv.2) l).
Proof.
  induction l as [|kv l IH]; [done|].
  rewrite bind_cons, filter_app, length_app, IH, filter_cons.
  rewrite length_filter_eq_NoDup by apply NoDup_elements.
  destruct (decide (d ∈ elements kv.2)) as [Hin|Hout].
  - apply elem_of_elements in Hin. by rewrite decide_True.
  - rewrite decide_False; [done|]. intros Hin. by apply Hout, elem_of_elements.
Qed.

(** The set of a customer holds a device exactly when a record pairs them. *)
Lemma dispositivo_de_cliente (regs : list (string * string)) (k d : string) :
  (∃ s, Dispositivos.clientes_dispositivos (Dispositivos.acumular regs) !! k = Some s
        ∧ d ∈ s)
  ↔ (k, d) ∈ regs.
Proof.
  destruct (acumular_spec regs k) as [Hnil Hcons]. cbn zeta in *.
  assert (Hmem : d ∈ (filter (λ p, p.1 = k) regs).*2 ↔ (k, d) ∈ regs).
  { rewrite list_elem_of_fmap. split.
    - intros ([k' d'] & -> & [Hk Hin]%list_elem_of_filter). simpl in Hk.
      by subst k'.
    - intros Hin. exists (k, d). split; [done|]. by apply list_elem_of_filter. }
  split.
  - intros (s & Hs & Hd).
    destruct ((filter (λ p, p.1 = k) regs).*2) as [|d' l] eqn:Hf.
    + destruct Hnil as [Hn _]; [done|]. congruence.
    + destruct Hcons as [Hc _]; [done|]. rewrite Hc in Hs. simplify_eq.
      apply Hmem. by apply elem_of_list_to_set in Hd.
  - intros Hin. apply Hmem in Hin.
    destruct Hcons as [Hc _].
    { intros Hf. rewrite Hf in Hin. by apply elem_of_nil in Hin. }
    eexists. split; [exact Hc|]. by apply elem_of_list_to_set.
Qed.

Lemma NoDup_fst_filter {A B} (P : A * B → Prop) `{∀ x, Decision (P x)}
    (l : list (A * B)) :
  NoDup l.*1 → NoDup (filter P l).*1.
Proof.
  intros Hnd. eapply sublist_NoDup; [exact Hnd|].
  apply fmap_sublist, sublist_filter.
Qed.

(** X14. The distribution of devices counts customers, not records: each
    device of the cleaned records appears once in [dispositivo_counts], with
    the number of distinct customers that have a record on it, and the
    entries come in non-increasing order of that number. *)
Theorem dispositivo_counts_cuenta_clientes
    (df_clean : list (string * string)) :
  let cuentas :=
    EstadisticasDispositivos.dispositivo_counts (Dispositivos.acumular df_clean) in
  NoDup cuentas.*1 ∧
  (∀ d, d ∈ cuentas.*1 ↔ d ∈ df_clean.*2) ∧
  (∀ d n, (d, n) ∈ cuentas →
     n = Z.of_nat (length (remove_dups (filter (λ p, p.2 = d) df_clean).*1))
     ∧ 1 ≤ n) ∧
  StronglySorted desc cuentas.
Proof.
  cbn zeta.
  unfold EstadisticasDispositivos.dispositivo_counts, value_counts.
  set (todos := EstadisticasDispositivos.todos_dispositivos
                  (Dispositivos.acumular df_clean)).
  set (m := Dispositivos.clientes_dispositivos (Dispositivos.acumular df_clean)).
  assert (Htodos : ∀ d, d ∈ todos ↔ d ∈ df_clean.*2).
  { intros d. unfold todos, EstadisticasDispositivos.todos_dispositivos.
    rewrite list_elem_of_bind. split.
    - intros ([k s] & Hd & Hks). simpl in Hd. apply elem_of_elements in Hd.
      apply elem_of_map_to_list in Hks.
      assert (Hin : (k, d) ∈ df_clean)
        by (apply dispositivo_de_cliente; by exists s).
      apply list_elem_of_fmap. by exists (k, d).
    - intros ([k d'] & -> & Hin)%list_elem_of_fmap. simpl.
      apply dispositivo_de_cliente in Hin as (s & Hs & Hd).
      exists (k, s). split; [by apply elem_of_elements|].
      by apply elem_of_map_to_list. }
  assert (Hperm : ∀ s : Serie, (ordenar_desc s).*1 ≡ₚ s.*1).
  { intros s. apply fmap_Permutation. induction s as [|x s IH]; [done|].
    cbn [ordenar_desc foldr]. fold (ordenar_desc s). rewrite <- IH at 2.
    clear IH. induction (ordenar_desc s) as [|y l IHl]; [done|].
    simpl. destruct (x.2 <? y.2); [|done]. rewrite IHl. apply Permutation_swap. }
  split_and!.
  - rewrite Hperm, <- list_fmap_compose. simpl.
    rewrite list_fmap_id. apply NoDup_remove_dups.
  - intros d. rewrite Hperm, <- list_fmap_compose. simpl.
    rewrite list_fmap_id, elem_of_remove_dups. apply Htodos.
  - intros d n Hdn. rewrite elem_of_ordenar_desc in Hdn.
    apply list_elem_of_fmap in Hdn as (d' & [= -> ->] & Hd).
    rewrite elem_of_remove_dups in Hd.
    assert (Hn : length (filter (λ x, x = d') todos)
                 = length (remove_dups (filter (λ p, p.2 = d') df_clean).*1)).
    { unfold todos, EstadisticasDispositivos.todos_dispositivos.
      rewrite contar_en_todos_dispositivos.
      rewrite <- (length_fmap fst (filter _ (map_to_list _))).
      apply Permutation_length, NoDup_Permutation.
      - apply NoDup_fst_filter, NoDup_fst_map_to_list.
      - apply NoDup_remove_dups.
      - intros k. rewrite elem_of_remove_dups, !list_elem_of_fmap. split.
        + intros ([k' s] & -> & [Hds Hks]%list_elem_of_filter). simpl in *.
          apply elem_of_map_to_list in Hks. exists (k', d'). split; [done|].
          apply list_elem_of_filter. split; [done|].
          apply dispositivo_de_cliente. by exists s.
        + intros ([k' d''] & -> & [Hd' Hin]%list_elem_of_filter). simpl in *.
          subst d''. apply dispositivo_de_cliente in Hin as (s & Hs & Hds).
          exists (k', s). split; [done|]. apply list_elem_of_filter.
          split; [done|]. by apply elem_of_map_to_list. }
    split; [by rewrite Hn|].
    assert (Hpos : filter (λ x, x = d') todos ≠ []).
    { intros Hnil.
      assert (Hin : d' ∈ filter (λ x, x = d') todos)
        by (by apply list_elem_of_filter).
      rewrite Hnil in Hin. by apply elem_of_nil in Hin. }
    destruct (filter (λ x, x = d') todos); [done|]. simpl length. lia.
  - apply StronglySorted_ordenar_desc.
Qed.

(** * The counter of customer identifiers *)

Lemma unique_snoc (l : list string) (x : string) :
  unique (l ++ [x]) = if decide (x ∈ unique l) then unique l else unique l ++ [x].
Proof. unfold unique. by rewrite foldl_app. Qed.

Lemma unique_spec (l : list string) :
  NoDup (unique l) ∧ ∀ x, x ∈ unique l ↔ x ∈ l.
Proof.
  induction l as [|y l [IHn IHe]] using rev_ind.
  - split; [constructor|done].
  - rewrite unique_snoc. destruct (decide (y ∈ unique l)) as [Hin|Hout].
    + split; [done|]. intros x. rewrite elem_of_app, list_elem_of_singleton, IHe.
      split; [by left|]. intros [?| ->]; [done|]. by apply IHe.
    + split.
      * apply NoDup_app. split; [done|]. split; [|apply NoDup_singleton].
        intros x Hx ->%list_elem_of_singleton. done.
      * intros x. by rewrite !elem_of_app, IHe.
Qed.

Lemma unique_perm (l : list string) : unique l ≡ₚ remove_dups l.
Proof.
  apply NoDup_Permutation.
  - apply unique_spec.
  - apply NoDup_remove_dups.
  - intros x. rewrite elem_of_remove_dups. apply unique_spec.
Qed.

(** One more occurrence of [x] in a counter whose keys are distinct. *)
Lemma contar_clave_fmap (g : string → Z) (x : string) (u : list string) :
  NoDup u →
  Clientes.contar_clave x ((λ k, (k, g k)) <$> u)
  = if decide (x ∈ u) then
      (λ k, (k, if decide (k = x) then g k + 1 else g k)) <$> u
    else ((λ k, (k, g k)) <$> u) ++ [(x, 1)].
Proof.
  induction 1 as [|k u Hk Hnd IH]; [done|].
  rewrite fmap_cons. cbn [Clientes.contar_clave].
  destruct (decide (x = k)) as [->|Hne].
  - rewrite (decide_True (P := k ∈ k :: u)) by left.
    rewrite fmap_cons, decide_True by done. f_equal.
    apply list_fmap_ext. intros i k' Hk'.
    rewrite decide_False; [done|]. intros ->.
    by apply list_elem_of_lookup_2 in Hk'.
  - rewrite IH. destruct (decide (x ∈ u)) as [Hin|Hout].
    + rewrite (decide_True (P := x ∈ k :: u)) by (by right).
      rewrite fmap_cons. by rewrite (decide_False (P := k = x)) by done.
    + rewrite (decide_False (P := x ∈ k :: u)); [done|].
      intros [?|?]%elem_of_cons; done.
Qed.

Lemma length_filter_eq_0 (x : string) (l : list string) :
  x ∉ l → length (filter (λ y, y = x) l) = 0%nat.
Proof.
  intros Hx. induction l as [|y l IH]; [done|].
  rewrite filter_cons, decide_False.
  - apply IH. intros ?. apply Hx. by right.
  - intros ->. apply Hx. left.
Qed.

(** The counter holds, for each distinct identifier in the order of first
    appearance, the number of its occurrences. *)
Lemma Counter_spec (l : list string) :
  Clientes.Counter l
  = (λ k, (k, Z.of_nat (length (filter (λ x, x = k) l)))) <$> unique l.
Proof.
  induction l as [|x l IH] using rev_ind; [done|].
  unfold Clientes.Counter. rewrite foldl_app. cbn [foldl].
  fold (Clientes.Counter l). rewrite IH.
  rewrite contar_clave_fmap by apply unique_spec. rewrite unique_snoc.
  destruct (decide (x ∈ unique l)) as [Hin|Hout].
  - apply list_fmap_ext. intros i k _. f_equal.
    rewrite filter_app, length_app, filter_cons, filter_nil.
    destruct (decide (k = x)) as [->|Hne].
    + rewrite decide_True by done. simpl length. lia.
    + rewrite decide_False by done. simpl length. lia.
  - rewrite fmap_app. f_equal.
    + apply list_fmap_ext. intros i k Hk. f_equal.
      rewrite filter_app, length_app, filter_cons, filter_nil.
      rewrite decide_False; [simpl length; lia|]. intros ->.
      by apply list_elem_of_lookup_2 in Hk.
    + simpl. do 2 f_equal.
      rewrite filter_app, length_app, filter_cons, filter_nil.
      rewrite decide_True by done.
      rewrite length_filter_eq_0 by (intros ?; by apply Hout, unique_spec).
      done.
Qed.

Lemma length_filter_eq_pos (x : string) (l : list string) :
  x ∈ l → (1 ≤ length (filter (λ y, y = x) l))%nat.
Proof.
  intros Hx.
  assert (Hin : x ∈ filter (λ y, y = x) l) by (by apply list_elem_of_filter).
  destruct (filter (λ y, y = x) l); [by apply elem_of_nil in Hin|].
  simpl. lia.
Qed.

Lemma suma_contar_clave (k : string) (c : list (string * Z)) :
  suma (Clientes.contar_clave k c).*2 = suma c.*2 + 1.
Proof.
  induction c as [|[k' n] c IH]; [done|]. cbn [Clientes.contar_clave].
  destruct (decide (k = k')); csimpl; [lia|]. rewrite IH. lia.
Qed.

Lemma suma_Counter (l : list string) :
  suma (Clientes.Counter l).*2 = Z.of_nat (length l).
Proof.
  induction l as [|x l IH] using rev_ind; [done|].
  unfold Clientes.Counter. rewrite foldl_app. cbn [foldl].
  fold (Clientes.Counter l). rewrite suma_contar_clave, IH, length_app.
  simpl length. lia.
Qed.

Lemma length_Counter (l : list string) :
  length (Clientes.Counter l) = Clientes.nunique l.
Proof.
  rewrite Counter_spec, length_fmap. unfold Clientes.nunique.
  apply Permutation_length, unique_perm.
Qed.

Lemma elem_of_Counter (l : list string) (k : string) (v : Z) :
  (k, v) ∈ Clientes.Counter l
  ↔ k ∈ l ∧ v = Z.of_nat (length (filter (λ x, x = k) l)).
Proof.
  rewrite Counter_spec, list_elem_of_fmap. split.
  - intros (k' & [= -> ->] & Hk). split; [by apply unique_spec|done].
  - intros [Hk ->]. exists k. split; [done|]. by apply unique_spec.
Qed.

(** * What a run of the customer analysis prints and writes *)

Lemma nunique_pos (l : list string) : l ≠ [] → (0 < Clientes.nunique l)%nat.
Proof.
  destruct l as [|x l]; [done|]. intros _. unfold Clientes.nunique.
  assert (Hin : x ∈ remove_dups (x :: l)) by (apply elem_of_remove_dups; left).
  destruct (remove_dups (x :: l)); [by apply elem_of_nil in Hin|]. simpl. lia.
Qed.

(** The trace of the analysis of a sheet with at least one identifier. *)
Lemma clientes_con_identificadores
    (fs : SistemaArchivos) (archivo_excel : string)
    (libro : Libro) (df : DataFrame) (tr0 : list evento) :
  fs archivo_excel = Some libro →
  leer_hoja libro = (tr0, inr (Some df)) →
  "CUSTOMER_ID" ∈ columns df →
  Clientes.customer_ids df ≠ [] →
  let ids := Clientes.customer_ids df in
  let contador := Clientes.Counter ids in
  let duplicados := filter (λ kv : string * Z, 1 < kv.2) contador in
  let total_unicos := Z.of_nat (Clientes.nunique ids) in
  Clientes.analizar_customer_ids fs archivo_excel
  = (tr0 ++
     [Print (Informe "ANÁLISIS DE CUSTOMER_ID"
               [Z.of_nat (length ids); total_unicos;
                Z.of_nat (length ids) - total_unicos]);
      Print (if decide (duplicados = []) then
               Informe "No se encontraron CUSTOMER_IDs duplicados" []
             else Informe "CUSTOMER_IDs DUPLICADOS" duplicados.*2);
      Print (Informe "Primeros 5 CUSTOMER_IDs únicos" []);
      Print (Informe "RESUMEN ESTADÍSTICO" []);
      Print (Porcentaje "Porcentaje de duplicados"
               (inject_Z (Z.of_nat (length duplicados)) / inject_Z total_unicos
                * 100));
      Print (Informe "Ratio duplicados/únicos"
               [Z.of_nat (length duplicados); total_unicos]);
      to_csv "analisis_customer_ids.csv"
        ((λ kv, (kv.1, kv.2, bool_decide (1 < kv.2))) <$> contador)],
     inr ()).
Proof.
  intros Hfs Hleer Hcol Hids. cbn zeta.
  unfold Clientes.analizar_customer_ids, Clientes.cuerpo.
  rewrite Hfs. unfold mbind, efecto_bind. rewrite Hleer.
  rewrite decide_False by (intros H; by apply H).
  pose proof (nunique_pos _ Hids) as Hpos.
  rewrite (decide_True (P := 0 < Z.of_nat (Clientes.nunique (Clientes.customer_ids df))))
    by lia.
  unfold div_python.
  rewrite (decide_False (P := Z.of_nat (Clientes.nunique (Clientes.customer_ids df)) = 0))
    by lia.
  generalize (Clientes.Counter (Clientes.customer_ids df)). intros contador.
  generalize (Z.of_nat (Clientes.nunique (Clientes.customer_ids df))). intros u.
  generalize (Z.of_nat (length (Clientes.customer_ids df))). intros n.
  generalize (filter (λ kv : string * Z, 1 < kv.2) contador). intros duplicados.
  unfold print, emitir, mret, efecto_ret, try_except.
  destruct (decide (duplicados = [])); cbn; by rewrite <- ?app_assoc.
Qed.

(** X15. With at least one non-null identifier the customer analysis ends
    without an error and writes one file, [analisis_customer_ids.csv]: its
    rows are the distinct identifiers in the order of first appearance, each
    with the number of its occurrences (at least 1) and with ES_DUPLICADO
    true exactly when that number exceeds 1, and the frequencies add up to
    the number of identifiers. *)
Theorem csv_de_clientes
    (fs : SistemaArchivos) (archivo_excel : string)
    (libro : Libro) (df : DataFrame) (tr0 : list evento) :
  fs archivo_excel = Some libro →
  leer_hoja libro = (tr0, inr (Some df)) →
  "CUSTOMER_ID" ∈ columns df →
  Clientes.customer_ids df ≠ [] →
  let ids := Clientes.customer_ids df in
  let corrida := Clientes.analizar_customer_ids fs archivo_excel in
  ∃ filas_csv,
    corrida.2 = inr () ∧
    escrituras corrida.1 = [to_csv "analisis_customer_ids.csv" filas_csv] ∧
    (∀ e, Print (ErrorInesperado e) ∉ corrida.1) ∧
    filas_csv.*1.*1 = unique ids ∧
    (∀ k v b, (k, v, b) ∈ filas_csv →
       v = Z.of_nat (length (filter (λ x, x = k) ids)) ∧ 1 ≤ v ∧
       b = bool_decide (1 < v)) ∧
    suma filas_csv.*1.*2 = Z.of_nat (length ids).
Proof.
  intros Hfs Hleer Hcol Hids. cbn zeta.
  rewrite (clientes_con_identificadores _ _ _ _ _ Hfs Hleer Hcol Hids).
  eexists. cbn [fst snd]. split; [done|].
  assert (Htr0 : escrituras tr0 = [] ∧ ∀ e, Print (ErrorInesperado e) ∉ tr0).
  { destruct (leer_hoja_traza _ _ _ Hleer) as [-> | ->].
    - split; [done|]. intros e. apply not_elem_of_nil.
    - split; [done|]. intros e. no_impreso. }
  destruct Htr0 as [Hesc Hno]. split_and!.
  - rewrite escrituras_app, Hesc. simpl. reflexivity.
  - intros e. rewrite elem_of_app. intros [H|H]; [by apply (Hno e)|].
    revert H. destruct (decide _); no_impreso.
  - rewrite <- !list_fmap_compose, Counter_spec, <- list_fmap_compose.
    apply list_fmap_id.
  - intros k v b Hin. apply list_elem_of_fmap in Hin as ([k' v'] & [= -> -> ->] & Hkv).
    apply elem_of_Counter in Hkv as [Hk ->]. split; [done|]. split; [|done].
    pose proof (length_filter_eq_pos _ _ Hk). lia.
  - rewrite <- suma_Counter. f_equal. rewrite <- !list_fmap_compose.
    by apply list_fmap_ext.
Qed.

Lemma csv_de_clientes_witness :
  ∃ filas_csv,
    (Clientes.analizar_customer_ids fs_completo "datos.xlsx").2 = inr () ∧
    escrituras (Clientes.analizar_customer_ids fs_completo "datos.xlsx").1
    = [to_csv "analisis_customer_ids.csv" filas_csv] ∧
    (∀ e, Print (ErrorInesperado e)
          ∉ (Clientes.analizar_customer_ids fs_completo "datos.xlsx").1) ∧
    filas_csv.*1.*1 = unique (Clientes.customer_ids hoja_completa) ∧
    (∀ k v b, (k, v, b) ∈ filas_csv →
       v = Z.of_nat (length (filter (λ x, x = k)
                               (Clientes.customer_ids hoja_completa))) ∧
       1 ≤ v ∧ b = bool_decide (1 < v)) ∧
    suma filas_csv.*1.*2 = Z.of_nat (length (Clientes.customer_ids hoja_completa)).
Proof.
  apply (csv_de_clientes fs_completo "datos.xlsx"
           [("Dataset", hoja_completa)] hoja_completa []).
  - reflexivity.
  - reflexivity.
  - decidir.
  - vm_compute. discriminate.
Defined.

Lemma suma_fmap_filter {A} (f : A → Z) (P : A → Prop) `{∀ x, Decision (P x)}
    (l : list A) :
  (∀ x, x ∈ l → ¬ P x → f x = 0) →
  suma (f <$> filter P l) = suma (f <$> l).
Proof.
  induction l as [|x l IH]; intros Hf; [done|].
  rewrite filter_cons, fmap_cons.
  assert (IH' : suma (f <$> filter P l) = suma (f <$> l))
    by (apply IH; intros y Hy; apply Hf; by right).
  destruct (decide (P x)) as [Hp|Hn].
  - rewrite fmap_cons. cbn [suma foldr]. fold (suma (f <$> filter P l)).
    fold (suma (f <$> l)). lia.
  - cbn [suma foldr]. fold (suma (f <$> l)).
    rewrite (Hf x) by (by left || done). lia.
Qed.

Lemma suma_fmap_menos_1 {A} (g : A → Z) (l : list A) :
  suma ((λ x, g x - 1) <$> l) = suma (g <$> l) - Z.of_nat (length l).
Proof. induction l as [|x l IH]; csimpl; lia. Qed.

Lemma NoDup_por_cuenta (l : list string) :
  (∀ k, k ∈ l → (length (filter (λ x, x = k) l) ≤ 1)%nat) → NoDup l.
Proof.
  induction l as [|x l IH]; intros Hc; [constructor|].
  constructor.
  - intros Hx. pose proof (Hc x ltac:(left)) as H1.
    rewrite filter_cons, decide_True in H1 by done. simpl in H1.
    pose proof (length_filter_eq_pos _ _ Hx). lia.
  - apply IH. intros k Hk. pose proof (Hc k ltac:(by right)) as H1.
    rewrite filter_cons in H1. destruct (decide (x = k)); simpl in H1; lia.
Qed.

(** X16. The numbers of the customer report, for at least one identifier:
    the count of duplicated records printed in the header (records minus
    distinct identifiers) is the number of surplus occurrences of the
    repeated identifiers; no identifier is listed as repeated exactly when
    the identifiers are pairwise distinct; and the percentage of repeated
    identifiers lies between 0 and 100. *)
Theorem duplicados_de_clientes (ids : list string) :
  ids ≠ [] →
  let contador := Clientes.Counter ids in
  let duplicados := filter (λ kv : string * Z, 1 < kv.2) contador in
  let total_unicos := Z.of_nat (Clientes.nunique ids) in
  Z.of_nat (length ids) - total_unicos
  = suma ((λ kv : string * Z, kv.2 - 1) <$> duplicados) ∧
  (duplicados = [] ↔ NoDup ids) ∧
  (0 <= inject_Z (Z.of_nat (length duplicados)) / inject_Z total_unicos * 100)%Q ∧
  (inject_Z (Z.of_nat (length duplicados)) / inject_Z total_unicos * 100 <= 100)%Q.
Proof.
  intros Hids. cbn zeta.
  assert (Hval : ∀ kv, kv ∈ Clientes.Counter ids → 1 ≤ kv.2).
  { intros [k v] [Hk ->]%elem_of_Counter. simpl.
    pose proof (length_filter_eq_pos _ _ Hk). lia. }
  split_and!.
  - rewrite suma_fmap_filter.
    + rewrite (suma_fmap_menos_1 snd), suma_Counter, length_Counter. done.
    + intros kv Hkv Hn. apply Hval in Hkv. lia.
  - split.
    + intros Hnil. apply NoDup_por_cuenta. intros k Hk.
      destruct (decide (length (filter (λ x, x = k) ids) ≤ 1)%nat) as [|Hgt];
        [done|].
      assert (Hin : (k, Z.of_nat (length (filter (λ x, x = k) ids)))
                    ∈ filter (λ kv : string * Z, 1 < kv.2) (Clientes.Counter ids)).
      { apply list_elem_of_filter. split; [simpl; lia|].
        by apply elem_of_Counter. }
      rewrite Hnil in Hin. by apply elem_of_nil in Hin.
    + intros Hnd.
      destruct (filter (λ kv : string * Z, 1 < kv.2) (Clientes.Counter ids))
        as [|[k v] rest] eqn:Hf; [done|].
      assert (Hin : (k, v) ∈ filter (λ kv : string * Z, 1 < kv.2)
                               (Clientes.Counter ids)) by (rewrite Hf; left).
      apply list_elem_of_filter in Hin as [Hgt [Hk ->]%elem_of_Counter].
      simpl in Hgt. rewrite length_filter_eq_NoDup in Hgt by done.
      destruct (decide (k ∈ ids)); simpl in Hgt; lia.
  - pose proof (nunique_pos _ Hids) as Hpos.
    pose proof (length_filter (λ kv : string * Z, 1 < kv.2) (Clientes.Counter ids))
      as Hle.
    rewrite length_Counter in Hle.
    set (m := length (filter _ _)) in *. set (t := Clientes.nunique ids) in *.
    assert (Hm : (0 <= inject_Z (Z.of_nat m))%Q)
      by (change 0%Q with (inject_Z 0); rewrite <- Zle_Qle; lia).
    assert (Ht : (0 < inject_Z (Z.of_nat t))%Q)
      by (change 0%Q with (inject_Z 0); rewrite <- Zlt_Qlt; lia).
    assert (H0 : (0 <= inject_Z (Z.of_nat m) / inject_Z (Z.of_nat t))%Q)
      by (apply Qle_shift_div_l; lra).
    lra.
  - pose proof (nunique_pos _ Hids) as Hpos.
    pose proof (length_filter (λ kv : string * Z, 1 < kv.2) (Clientes.Counter ids))
      as Hle.
    rewrite length_Counter in Hle.
    set (m := length (filter _ _)) in *. set (t := Clientes.nunique ids) in *.
    assert (Ht : (0 < inject_Z (Z.of_nat t))%Q)
      by (change 0%Q with (inject_Z 0); rewrite <- Zlt_Qlt; lia).
    assert (Hmt : (inject_Z (Z.of_nat m) <= inject_Z (Z.of_nat t))%Q)
      by (rewrite <- Zle_Qle; lia).
    assert (H100 : (inject_Z (Z.of_nat m) / inject_Z (Z.of_nat t) <= 1)%Q)
      by (apply Qle_shift_div_r; lra).
    lra.
Qed.

Lemma duplicados_de_clientes_witness :
  let ids := Clientes.customer_ids hoja_completa in
  let duplicados :=
    filter (λ kv : string * Z, 1 < kv.2) (Clientes.Counter ids) in
  Z.of_nat (length ids) - Z.of_nat (Clientes.nunique ids)
  = suma ((λ kv : string * Z, kv.2 - 1) <$> duplicados) ∧
  (duplicados = [] ↔ NoDup ids) ∧
  (0 <= inject_Z (Z.of_nat (length duplicados))
        / inject_Z (Z.of_nat (Clientes.nunique ids)) * 100)%Q ∧
  (inject_Z (Z.of_nat (length duplicados))
   / inject_Z (Z.of_nat (Clientes.nunique ids)) * 100 <= 100)%Q.
Proof.
  apply (duplicados_de_clientes (Clientes.customer_ids hoja_completa)).
  vm_compute. discriminate.
Defined.

(** The ways a run of the customer analysis can end. *)
Lemma clientes_casos (fs : SistemaArchivos) (archivo_excel : string) :
  let corrida := Clientes.analizar_customer_ids fs archivo_excel in
  corrida.2 = inr () ∧
  (escrituras corrida.1 = [] ∨
   ∃ libro df,
     fs archivo_excel = Some libro ∧
     (leer_hoja libro).2 = inr (Some df) ∧
     "CUSTOMER_ID" ∈ columns df ∧
     Clientes.customer_ids df ≠ [] ∧
     escrituras corrida.1
     = [to_csv "analisis_customer_ids.csv"
          ((λ kv, (kv.1, kv.2, bool_decide (1 < kv.2)))
             <$> Clientes.Counter (Clientes.customer_ids df))]).
Proof.
  cbn zeta. destruct (fs archivo_excel) as [libro|] eqn:Hfs.
  2: { unfold Clientes.analizar_customer_ids, Clientes.cuerpo. rewrite Hfs.
       cbn. split; [done|by left]. }
  assert (Hhoja : ∀ tr0 df,
            leer_hoja libro = (tr0, inr (Some df)) → escrituras tr0 = [] →
            let corrida := Clientes.analizar_customer_ids fs archivo_excel in
            corrida.2 = inr () ∧
            (escrituras corrida.1 = [] ∨
             ("CUSTOMER_ID" ∈ columns df ∧
              Clientes.customer_ids df ≠ [] ∧
              escrituras corrida.1
              = [to_csv "analisis_customer_ids.csv"
                   ((λ kv, (kv.1, kv.2, bool_decide (1 < kv.2)))
                      <$> Clientes.Counter (Clientes.customer_ids df))]))).
  { intros tr0 df Hleer Hesc. cbn zeta.
    destruct (decide ("CUSTOMER_ID" ∈ columns df)) as [Hcol|Hcol].
    - destruct (decide (Clientes.customer_ids df = [])) as [Hids|Hids].
      + rewrite (clientes_sin_identificadores _ _ _ _ _ Hfs Hleer Hcol Hids).
        cbn [fst snd]. split; [done|]. left. by rewrite escrituras_app, Hesc.
      + rewrite (clientes_con_identificadores _ _ _ _ _ Hfs Hleer Hcol Hids).
        cbn [fst snd]. split; [done|]. right. split; [done|]. split; [done|].
        by rewrite escrituras_app, Hesc.
    - unfold Clientes.analizar_customer_ids, Clientes.cuerpo.
      rewrite Hfs. unfold mbind, efecto_bind. rewrite Hleer.
      rewrite decide_True by done. cbn. split; [done|]. left.
      by rewrite escrituras_app, Hesc. }
  destruct (leer_hoja_casos libro) as [[df Hl]|[[df Hl]|Hl]].
  - destruct (Hhoja [] df Hl) as [Hr [He|(?&?&?)]]; [done| |];
      (split; [done|]); [by left|].
    right. exists libro, df. rewrite Hl. by split_and!.
  - destruct (Hhoja _ df Hl) as [Hr [He|(?&?&?)]]; [done| |];
      (split; [done|]); [by left|].
    right. exists libro, df. rewrite Hl. by split_and!.
  - unfold Clientes.analizar_customer_ids, Clientes.cuerpo.
    rewrite Hfs. unfold mbind, efecto_bind. rewrite Hl. cbn.
    split; [done|by left].
Qed.

(** X17. [main] of the customer script never ends in an exception; a blank
    path ends the run after the message, before anything is read; and a
    file is written only for a workbook that exists, whose sheet could be
    read and holds at least one non-null CUSTOMER_ID: then it is the one
    file [analisis_customer_ids.csv], with a row for each entry of the
    counter of identifiers. *)
Theorem main_clientes (fs : SistemaArchivos) (linea1 : string) :
  let corrida := MainClientes.main fs linea1 in
  corrida.2 = inr () ∧
  (leer_ruta linea1 = EmptyString →
   corrida.1 = [Print (Informe "ANALIZADOR DE CUSTOMER_ID EN EXCEL" []);
                Print ruta_invalida]) ∧
  (escrituras corrida.1 ≠ [] →
   ∃ libro df,
     fs (leer_ruta linea1) = Some libro ∧
     (leer_hoja libro).2 = inr (Some df) ∧
     "CUSTOMER_ID" ∈ columns df ∧
     Clientes.customer_ids df ≠ [] ∧
     escrituras corrida.1
     = [to_csv "analisis_customer_ids.csv"
          ((λ kv, (kv.1, kv.2, bool_decide (1 < kv.2)))
             <$> Clientes.Counter (Clientes.customer_ids df))]).
Proof.
  cbn zeta. unfold MainClientes.main.
  destruct (decide (leer_ruta linea1 = EmptyString)) as [Hv|Hnv].
  { cbn. split_and!; [done|done|]. by intros []. }
  pose proof (clientes_casos fs (leer_ruta linea1)) as [Hr Hc].
  unfold mbind, efecto_bind, print.
  destruct (Clientes.analizar_customer_ids fs (leer_ruta linea1))
    as [tr [e|[]]]; cbn [fst snd] in *; [discriminate|].
  split_and!; [done|done|]. cbn. intros Hne.
  destruct Hc as [He|(libro & df & ? & ? & ? & ? & He)]; [done|].
  by exists libro, df.
Qed.

Lemma main_clientes_witness :
  ∃ libro df,
    fs_completo (leer_ruta "datos.xlsx") = Some libro ∧
    (leer_hoja libro).2 = inr (Some df) ∧
    "CUSTOMER_ID" ∈ columns df ∧
    Clientes.customer_ids df ≠ [] ∧
    escrituras (MainClientes.main fs_completo "datos.xlsx").1
    = [to_csv "analisis_customer_ids.csv"
         ((λ kv, (kv.1, kv.2, bool_decide (1 < kv.2)))
            <$> Clientes.Counter (Clientes.customer_ids df))].
Proof.
  apply (proj2 (proj2 (main_clientes fs_completo "datos.xlsx"))).
  vm_compute. discriminate.
Defined.

(** * The analysis of recurrence *)

Lemma ordenar_desc_perm (s : Serie) : ordenar_desc s ≡ₚ s.
Proof.
  induction s as [|x s IH]; [done|].
  cbn [ordenar_desc foldr]. fold (ordenar_desc s). rewrite <- IH at 2.
  clear IH. induction (ordenar_desc s) as [|y l IHl]; [done|].
  simpl. destruct (x.2 <? y.2); [|done]. rewrite IHl. apply Permutation_swap.
Qed.

Lemma value_counts_claves (l : list string) :
  (value_counts l).*1 ≡ₚ remove_dups l.
Proof.
  unfold value_counts. rewrite ordenar_desc_perm, <- list_fmap_compose.
  simpl. by rewrite list_fmap_id.
Qed.

Lemma elem_of_value_counts (l : list string) (d : string) (n : Z) :
  (d, n) ∈ value_counts l
  ↔ d ∈ l ∧ n = Z.of_nat (length (filter (λ x, x = d) l)).
Proof.
  unfold value_counts. rewrite elem_of_ordenar_desc, list_elem_of_fmap. split.
  - intros (d' & [= -> ->] & Hd). rewrite elem_of_remove_dups in Hd. done.
  - intros [Hd ->]. exists d. split; [done|]. by rewrite elem_of_remove_dups.
Qed.

Lemma filter_clave_fmap {A} (clave : A → string) (f : string → A)
    (k : string) (l : list string) :
  (∀ x, clave (f x) = x) → NoDup l →
  filter (λ a, clave a = k) (f <$> l) = if decide (k ∈ l) then [f k] else [].
Proof.
  intros Hc. induction 1 as [|x l Hx Hnd IH]; [done|].
  rewrite fmap_cons, filter_cons, IH, Hc.
  destruct (decide (x = k)) as [->|Hne].
  - rewrite (decide_False (P := k ∈ l)) by done.
    by rewrite (decide_True (P := k ∈ k :: l)) by left.
  - destruct (decide (k ∈ l)) as [Hin|Hout].
    + by rewrite (decide_True (P := k ∈ x :: l)) by (by right).
    + rewrite (decide_False (P := k ∈ x :: l)); [done|].
      intros [?|?]%elem_of_cons; done.
Qed.

(** The merge pairs the frequency of each customer with the aggregate of
    the same customer. *)
Lemma merge_spec (df_clean : list (string * Q)) :
  AnalisisRecurrencia.merge
    (AnalisisRecurrencia.frecuencia_clientes df_clean)
    (AnalisisRecurrencia.screentime_clientes df_clean)
  = (λ kf : string * Z, (kf.2, AnalisisRecurrencia.agregado_de df_clean kf.1))
    <$> AnalisisRecurrencia.frecuencia_clientes df_clean.
Proof.
  unfold AnalisisRecurrencia.merge.
  assert (Hk : ∀ kf, kf ∈ AnalisisRecurrencia.frecuencia_clientes df_clean →
                     kf.1 ∈ df_clean.*1).
  { intros [k n] Hkn. by apply elem_of_value_counts in Hkn as [? _]. }
  induction (AnalisisRecurrencia.frecuencia_clientes df_clean) as [|kf l IH];
    [done|].
  rewrite bind_cons, fmap_cons, IH by (intros x Hx; apply Hk; by right).
  unfold AnalisisRecurrencia.screentime_clientes.
  rewrite (filter_clave_fmap AnalisisRecurrencia.ag_CUSTOMER_ID)
    by (done || apply NoDup_unicos_ordenados).
  rewrite decide_True; [done|].
  apply elem_of_unicos_ordenados, Hk. left.
Qed.

Lemma pd_cut_frecuencia :
  pd_cut false AnalisisRecurrencia.bins_frecuencia
    AnalisisRecurrencia.labels_frecuencia
  = inr (intervalo false AnalisisRecurrencia.bins_frecuencia
           AnalisisRecurrencia.labels_frecuencia).
Proof. reflexivity. Qed.

(** The rows of a successful analysis, one for each entry of the series of
    frequencies. *)
Lemma analisis_completo_filas (df_clean : list (string * Q))
    (analisis : list AnalisisRecurrencia.Fila) :
  AnalisisRecurrencia.analisis_completo df_clean = inr analisis →
  ∃ categoria_screentime : Q → option string,
    analisis
    = (λ kf : string * Z,
         let a := AnalisisRecurrencia.agregado_de df_clean kf.1 in
         AnalisisRecurrencia.mkFila kf.1 kf.2
           (AnalisisRecurrencia.ag_SCREENTIME_TOTAL a)
           (AnalisisRecurrencia.ag_SCREENTIME_PROMEDIO a)
           (AnalisisRecurrencia.ag_FRECUENCIA a)
           (AnalisisRecurrencia.ag_SCREENTIME_TOTAL a / inject_Z kf.2)
           (intervalo false AnalisisRecurrencia.bins_frecuencia
              AnalisisRecurrencia.labels_frecuencia (inject_Z kf.2))
           (categoria_screentime (AnalisisRecurrencia.ag_SCREENTIME_TOTAL a)))
      <$> AnalisisRecurrencia.frecuencia_clientes df_clean.
Proof.
  unfold AnalisisRecurrencia.analisis_completo. cbn zeta.
  destruct (decide _) as [|_]; [done|].
  rewrite pd_cut_frecuencia, merge_spec.
  destruct (quantile _ (33 # 100)) as [p33|]; [|done].
  destruct (quantile _ (66 # 100)) as [p66|]; [|done].
  destruct (pd_cut true _ _) as [e|cs]; [done|].
  intros [= <-]. exists cs. rewrite <- list_fmap_compose. done.
Qed.

(** The label that [pd.cut] with [right=False] gives to a frequency. *)
Lemma intervalo_frecuencia (n : Z) :
  1 ≤ n →
  intervalo false AnalisisRecurrencia.bins_frecuencia
    AnalisisRecurrencia.labels_frecuencia (inject_Z n)
  = Some (if n <? 3 then "Frecuente (2-3)"
          else if n <? 10 then "Muy Frecuente (4-10)"
          else if n <? 50 then "Super Usuario (11-50)"
          else "Power User (50+)").
Proof.
  intros Hn.
  unfold AnalisisRecurrencia.bins_frecuencia, AnalisisRecurrencia.labels_frecuencia.
  cbn [intervalo]. unfold borde_lt, borde_le, Qle_bool, inject_Z.
  cbn [Qnum Qden]. rewrite ?Z.mul_1_r, ?Z.mul_1_l.
  change (Z.pos 1) with 1.
  destruct (Z.leb_spec 0 n); [|lia]. destruct (Z.leb_spec 1 n); [|lia].
  destruct (Z.leb_spec 3 n), (Z.leb_spec 10 n), (Z.leb_spec 50 n),
    (Z.ltb_spec n 3), (Z.ltb_spec n 10), (Z.ltb_spec n 50);
    try lia; reflexivity.
Qed.

(** X18. In the table of the recurrence analysis, the frequency of a
    customer is the number of its cleaned records, and because [pd.cut] is
    called with [right=False] the category is the label of the next range:
    one or two views give [Frecuente (2-3)], 3 to 9 give
    [Muy Frecuente (4-10)], 10 to 49 give [Super Usuario (11-50)], 50 or more
    give [Power User (50+)], and no customer is ever [Ocasional (1)]. *)
Theorem categoria_de_frecuencia
    (df_clean : list (string * Q)) (analisis : list AnalisisRecurrencia.Fila)
    (f : AnalisisRecurrencia.Fila) :
  AnalisisRecurrencia.analisis_completo df_clean = inr analisis →
  f ∈ analisis →
  let n := AnalisisRecurrencia.FRECUENCIA_VISUALIZACIONES f in
  n = Z.of_nat (length (filter (λ p, p.1 = AnalisisRecurrencia.CUSTOMER_ID f)
                          df_clean)) ∧
  1 ≤ n ∧
  AnalisisRecurrencia.CATEGORIA_FRECUENCIA f
  = Some (if n <? 3 then "Frecuente (2-3)"
          else if n <? 10 then "Muy Frecuente (4-10)"
          else if n <? 50 then "Super Usuario (11-50)"
          else "Power User (50+)") ∧
  AnalisisRecurrencia.CATEGORIA_FRECUENCIA f ≠ Some "Ocasional (1)".
Proof.
  intros Han Hf. cbn zeta.
  destruct (analisis_completo_filas _ _ Han) as [cs ->].
  apply list_elem_of_fmap in Hf as ([k n] & -> & Hkn).
  cbn [AnalisisRecurrencia.FRECUENCIA_VISUALIZACIONES
         AnalisisRecurrencia.CUSTOMER_ID
         AnalisisRecurrencia.CATEGORIA_FRECUENCIA fst snd].
  apply elem_of_value_counts in Hkn as [Hk ->].
  pose proof (length_filter_eq_pos _ _ Hk) as Hpos.
  rewrite length_filter_fmap in *.
  split; [done|]. split; [lia|].
  rewrite intervalo_frecuencia by lia. split; [done|].
  repeat destruct (_ <? _); discriminate.
Qed.

Lemma categoria_de_frecuencia_witness :
  AnalisisRecurrencia.FRECUENCIA_VISUALIZACIONES fila_ejemplo
  = Z.of_nat (length (filter (λ p, p.1 = AnalisisRecurrencia.CUSTOMER_ID fila_ejemplo)
                        ejemplo_recurrencia)) ∧
  1 ≤ AnalisisRecurrencia.FRECUENCIA_VISUALIZACIONES fila_ejemplo ∧
  AnalisisRecurrencia.CATEGORIA_FRECUENCIA fila_ejemplo
  = Some (if AnalisisRecurrencia.FRECUENCIA_VISUALIZACIONES fila_ejemplo <? 3
          then "Frecuente (2-3)"
          else if AnalisisRecurrencia.FRECUENCIA_VISUALIZACIONES fila_ejemplo <? 10
          then "Muy Frecuente (4-10)"
          else if AnalisisRecurrencia.FRECUENCIA_VISUALIZACIONES fila_ejemplo <? 50
          then "Super Usuario (11-50)"
          else "Power User (50+)") ∧
  AnalisisRecurrencia.CATEGORIA_FRECUENCIA fila_ejemplo ≠ Some "Ocasional (1)".
Proof.
  apply (categoria_de_frecuencia ejemplo_recurrencia analisis_ejemplo fila_ejemplo).
  - vm_compute. reflexivity.
  - apply (list_elem_of_lookup_2 _ 2%nat). vm_compute. reflexivity.
Defined.

(** X19. The table of a successful recurrence analysis has exactly one
    row for each customer of the cleaned records, in non-increasing order of
    frequency; in every row the total is the sum of the screentime of the
    customer's records, and two pairs of columns carry the same values: the
    count of the aggregation repeats the frequency, and the screentime per
    view repeats the mean. *)
Theorem filas_de_analisis_completo
    (df_clean : list (string * Q)) (analisis : list AnalisisRecurrencia.Fila) :
  AnalisisRecurrencia.analisis_completo df_clean = inr analisis →
  NoDup (AnalisisRecurrencia.CUSTOMER_ID <$> analisis) ∧
  (∀ k, k ∈ AnalisisRecurrencia.CUSTOMER_ID <$> analisis ↔ k ∈ df_clean.*1) ∧
  StronglySorted
    (λ a b, AnalisisRecurrencia.FRECUENCIA_VISUALIZACIONES b
            ≤ AnalisisRecurrencia.FRECUENCIA_VISUALIZACIONES a) analisis ∧
  (∀ f, f ∈ analisis →
     AnalisisRecurrencia.SCREENTIME_TOTAL f
     = sumaQ (filter (λ p, p.1 = AnalisisRecurrencia.CUSTOMER_ID f) df_clean).*2 ∧
     AnalisisRecurrencia.FRECUENCIA f
     = AnalisisRecurrencia.FRECUENCIA_VISUALIZACIONES f ∧
     AnalisisRecurrencia.SCREENTIME_POR_VISUALIZACION f
     = AnalisisRecurrencia.SCREENTIME_PROMEDIO f).
Proof.
  intros Han. destruct (analisis_completo_filas _ _ Han) as [cs ->].
  assert (Hcl : ∀ l : Serie,
            AnalisisRecurrencia.CUSTOMER_ID <$>
              ((λ kf : string * Z,
                  let a := AnalisisRecurrencia.agregado_de df_clean kf.1 in
                  AnalisisRecurrencia.mkFila kf.1 kf.2
                    (AnalisisRecurrencia.ag_SCREENTIME_TOTAL a)
                    (AnalisisRecurrencia.ag_SCREENTIME_PROMEDIO a)
                    (AnalisisRecurrencia.ag_FRECUENCIA a)
                    (AnalisisRecurrencia.ag_SCREENTIME_TOTAL a / inject_Z kf.2)
                    (intervalo false AnalisisRecurrencia.bins_frecuencia
                       AnalisisRecurrencia.labels_frecuencia (inject_Z kf.2))
                    (cs (AnalisisRecurrencia.ag_SCREENTIME_TOTAL a))) <$> l)
            = l.*1).
  { intros l. induction l as [|x l IH]; [done|]. rewrite !fmap_cons.
    f_equal. exact IH. }
  split_and!.
  - rewrite Hcl. unfold AnalisisRecurrencia.frecuencia_clientes.
    rewrite value_counts_claves. apply NoDup_remove_dups.
  - intros k. rewrite Hcl. unfold AnalisisRecurrencia.frecuencia_clientes.
    rewrite value_counts_claves. apply elem_of_remove_dups.
  - unfold AnalisisRecurrencia.frecuencia_clientes, value_counts.
    pose proof (StronglySorted_ordenar_desc
                  ((λ d, (d, Z.of_nat (length (filter (λ x, x = d) df_clean.*1))))
                     <$> remove_dups df_clean.*1)) as Hs.
    induction Hs as [|x l _ IH Hall]; [constructor|].
    rewrite fmap_cons. constructor; [exact IH|].
    apply Forall_fmap. eapply Forall_impl; [exact Hall|].
    intros y Hy. exact Hy.
  - intros f Hf. apply list_elem_of_fmap in Hf as ([k n] & -> & Hkn).
    apply elem_of_value_counts in Hkn as [Hk ->].
    cbn -[intervalo]. split; [done|].
    rewrite length_fmap, length_filter_fmap. done.
Qed.

Lemma filas_de_analisis_completo_witness :
  NoDup (AnalisisRecurrencia.CUSTOMER_ID <$> analisis_ejemplo) ∧
  (∀ k, k ∈ AnalisisRecurrencia.CUSTOMER_ID <$> analisis_ejemplo
        ↔ k ∈ ejemplo_recurrencia.*1) ∧
  StronglySorted
    (λ a b, AnalisisRecurrencia.FRECUENCIA_VISUALIZACIONES b
            ≤ AnalisisRecurrencia.FRECUENCIA_VISUALIZACIONES a) analisis_ejemplo ∧
  (∀ f, f ∈ analisis_ejemplo →
     AnalisisRecurrencia.SCREENTIME_TOTAL f
     = sumaQ (filter (λ p, p.1 = AnalisisRecurrencia.CUSTOMER_ID f)
                ejemplo_recurrencia).*2 ∧
     AnalisisRecurrencia.FRECUENCIA f
     = AnalisisRecurrencia.FRECUENCIA_VISUALIZACIONES f ∧
     AnalisisRecurrencia.SCREENTIME_POR_VISUALIZACION f
     = AnalisisRecurrencia.SCREENTIME_PROMEDIO f).
Proof.
  apply (filas_de_analisis_completo ejemplo_recurrencia analisis_ejemplo).
  vm_compute. reflexivity.
Defined.

(** The quantile of a series whose values are all equal is that value. *)
Lemma quantile_constante (l : list Q) (t q p : Q) :
  (∀ x, x ∈ l → (x == t)%Q) → quantile l q = Some p → (p == t)%Q.
Proof.
  intros Hall. unfold quantile. cbn zeta.
  set (s := merge_sort numero_le l).
  assert (Hs : ∀ x, x ∈ s → (x == t)%Q).
  { intros x Hx. apply Hall. unfold s in Hx.
    by rewrite merge_sort_Permutation in Hx. }
  set (i := Z.to_nat (Qfloor (inject_Z (Z.of_nat (length s) - 1) * q))).
  destruct (s !! i) as [a|] eqn:Ha; cbn; [|discriminate].
  pose proof (Hs a (list_elem_of_lookup_2 _ _ _ Ha)) as Hat.
  destruct (s !! S i) as [b|] eqn:Hb; cbn; intros [= <-].
  - pose proof (Hs b (list_elem_of_lookup_2 _ _ _ Hb)) as Hbt.
    rewrite Hat, Hbt. ring.
  - rewrite Hat. ring.
Qed.

(** X20. How the recurrence analysis ends without a table: the division
    of line 63 fails exactly when there is no cleaned record; and when all
    the customers have the same total screentime, in particular when there
    is a single customer, the two percentiles coincide and [pd.cut] rejects
    the bins of line 96. *)
Theorem fallos_de_analisis_completo (df_clean : list (string * Q)) :
  (AnalisisRecurrencia.analisis_completo df_clean = inl DivisionPorCero
   ↔ df_clean = []) ∧
  (df_clean ≠ [] →
   (∀ k k', k ∈ df_clean.*1 → k' ∈ df_clean.*1 →
      (sumaQ (filter (λ p, p.1 = k) df_clean).*2
       == sumaQ (filter (λ p, p.1 = k') df_clean).*2)%Q) →
   AnalisisRecurrencia.analisis_completo df_clean = inl BordesRepetidos ∨
   AnalisisRecurrencia.analisis_completo df_clean = inl BinsNoMonotonos).
Proof.
  assert (Hpos : df_clean ≠ [] →
            Z.of_nat (length (remove_dups df_clean.*1)) ≠ 0).
  { intros Hne. destruct df_clean as [|p l]; [done|].
    pose proof (nunique_pos ((p :: l).*1)) as H. unfold Clientes.nunique in H.
    rewrite fmap_cons in *. specialize (H ltac:(done)). lia. }
  split.
  - split; [|by intros ->].
    intros Hdiv. destruct (decide (df_clean = [])) as [|Hne]; [done|].
    exfalso. revert Hdiv. unfold AnalisisRecurrencia.analisis_completo.
    cbn zeta. rewrite decide_False by (by apply Hpos).
    rewrite pd_cut_frecuencia.
    destruct (quantile _ (33 # 100)) as [p33|]; [|done].
    destruct (quantile _ (66 # 100)) as [p66|]; [|done].
    unfold pd_cut, validar_bins.
    destruct (negb (no_decreciente _)); [done|].
    destruct (negb (creciente _) && _); done.
  - intros Hne Heq. unfold AnalisisRecurrencia.analisis_completo. cbn zeta.
    rewrite decide_False by (by apply Hpos).
    rewrite pd_cut_frecuencia, merge_spec.
    destruct df_clean as [|p0 l0] eqn:Hdf; [done|]. rewrite <- Hdf in *.
    assert (Hp0 : p0.1 ∈ df_clean.*1) by (rewrite Hdf, fmap_cons; left).
    set (t := sumaQ (filter (λ p, p.1 = p0.1) df_clean).*2).
    set (totales := (λ r : Z * AnalisisRecurrencia.Agregado,
                       AnalisisRecurrencia.ag_SCREENTIME_TOTAL r.2) <$> _).
    assert (Hall : ∀ x, x ∈ totales → (x == t)%Q).
    { intros x Hx. unfold totales in Hx.
      rewrite <- list_fmap_compose in Hx.
      apply list_elem_of_fmap in Hx as ([k n] & -> & Hkn).
      apply elem_of_value_counts in Hkn as [Hk _]. cbn. by apply Heq. }
    destruct (quantile totales (33 # 100)) as [p33|] eqn:H33; [|by right].
    destruct (quantile totales (66 # 100)) as [p66|] eqn:H66; [|by right].
    pose proof (quantile_constante _ _ _ _ Hall H33) as E33.
    pose proof (quantile_constante _ _ _ _ Hall H66) as E66.
    unfold pd_cut, validar_bins. cbn [creciente no_decreciente length].
    assert (Hlt : borde_lt (Finito p33) (Finito p66) = false).
    { unfold borde_lt, borde_le. apply negb_false_iff, Qle_bool_iff.
      rewrite E33, E66. apply Qle_refl. }
    rewrite Hlt, andb_false_r. cbn [negb Nat.eqb andb].
    destruct (negb _); [by right|by left].
Qed.

Lemma fallos_de_analisis_completo_witness :
  AnalisisRecurrencia.analisis_completo [("a", 10%Q); ("a", 3%Q)]
  = inl BordesRepetidos ∨
  AnalisisRecurrencia.analisis_completo [("a", 10%Q); ("a", 3%Q)]
  = inl BinsNoMonotonos.
Proof.
  apply (proj2 (fallos_de_analisis_completo [("a", 10%Q); ("a", 3%Q)])).
  - discriminate.
  - intros k k' Hk Hk'.
    apply list_elem_of_fmap in Hk as (p & -> & Hp).
    apply list_elem_of_fmap in Hk' as (p' & -> & Hp').
    repeat (apply elem_of_cons in Hp as [->|Hp]);
      repeat (apply elem_of_cons in Hp' as [->|Hp']);
      try (by apply elem_of_nil in Hp); try (by apply elem_of_nil in Hp');
      reflexivity.
Defined.

(** X21. The valuable customers of the recurrence analysis are the rows
    with at least 3 views, not 4 as the first of their three labels reads,
    whose total screentime is in the highest class. *)
Theorem clientes_valiosos_desde_3
    (df_clean : list (string * Q)) (analisis : list AnalisisRecurrencia.Fila)
    (f : AnalisisRecurrencia.Fila) :
  AnalisisRecurrencia.analisis_completo df_clean = inr analisis →
  f ∈ AnalisisRecurrencia.clientes_valiosos analisis
  ↔ f ∈ analisis ∧
    3 ≤ AnalisisRecurrencia.FRECUENCIA_VISUALIZACIONES f ∧
    AnalisisRecurrencia.CATEGORIA_SCREENTIME f = Some "Alto Consumo".
Proof.
  intros Han. unfold AnalisisRecurrencia.clientes_valiosos.
  rewrite list_elem_of_filter.
  destruct (analisis_completo_filas _ _ Han) as [cs ->].
  split.
  - intros [[Hc Hs] Hf]. split; [done|]. split; [|done].
    apply list_elem_of_fmap in Hf as ([k n] & -> & Hkn).
    apply elem_of_value_counts in Hkn as [Hk ->].
    pose proof (length_filter_eq_pos _ _ Hk) as Hpos.
    cbn [AnalisisRecurrencia.FRECUENCIA_VISUALIZACIONES
           AnalisisRecurrencia.CATEGORIA_FRECUENCIA fst snd] in *.
    rewrite intervalo_frecuencia in Hc by lia.
    destruct (Z.ltb_spec (Z.of_nat (length (filter (λ x, x = k) df_clean.*1))) 3);
      [|done].
    exfalso. revert Hc. rewrite !elem_of_cons, elem_of_nil.
    intros [?|[?|[?|[]]]]; discriminate.
  - intros (Hf & H3 & Hs). split; [|done]. split; [|done].
    apply list_elem_of_fmap in Hf as ([k n] & -> & Hkn).
    cbn [AnalisisRecurrencia.FRECUENCIA_VISUALIZACIONES
           AnalisisRecurrencia.CATEGORIA_FRECUENCIA fst snd] in *.
    rewrite intervalo_frecuencia by lia.
    destruct (Z.ltb_spec n 3); [lia|].
    destruct (n <? 10); [left|]. destruct (n <? 50); [right; left|].
    right. right. left.
Qed.

Lemma clientes_valiosos_desde_3_witness :
  fila_ejemplo ∈ AnalisisRecurrencia.clientes_valiosos analisis_ejemplo
  ↔ fila_ejemplo ∈ analisis_ejemplo ∧
    3 ≤ AnalisisRecurrencia.FRECUENCIA_VISUALIZACIONES fila_ejemplo ∧
    AnalisisRecurrencia.CATEGORIA_SCREENTIME fila_ejemplo = Some "Alto Consumo".
Proof.
  apply (clientes_valiosos_desde_3 ejemplo_recurrencia analisis_ejemplo fila_ejemplo).
  vm_compute. reflexivity.
Defined.

(** * The count of genres *)

Lemma suma_value_counts (l : list string) :
  suma (value_counts l).*2 = Z.of_nat (length l).
Proof.
  unfold value_counts.
  rewrite (suma_Permutation _ _ (fmap_Permutation snd _ _ (ordenar_desc_perm _))).
  rewrite <- suma_Counter, Counter_spec.
  apply suma_Permutation. rewrite <- !list_fmap_compose.
  apply fmap_Permutation. symmetry. apply unique_perm.
Qed.

(** X22. The most viewed genre: it is missing exactly when the sheet has
    no genre (the script then fails on an empty series), and otherwise it is
    a genre of the sheet with the number of its records, which no other
    genre exceeds. *)
Theorem genero_mas_visto_es_maximo (generos : list string) :
  (AnalisisGeneros.genero_mas_visto (AnalisisGeneros.conteo_generos generos) = None
   ↔ generos = []) ∧
  (∀ g v,
     AnalisisGeneros.genero_mas_visto (AnalisisGeneros.conteo_generos generos)
     = Some (g, v) →
     g ∈ generos ∧
     v = Z.of_nat (length (filter (λ x, x = g) generos)) ∧
     ∀ g', Z.of_nat (length (filter (λ x, x = g') generos)) ≤ v).
Proof.
  unfold AnalisisGeneros.genero_mas_visto, AnalisisGeneros.conteo_generos.
  split.
  - split; [|by intros ->].
    intros Hnone. destruct generos as [|x l]; [done|]. exfalso.
    assert (Hin : (x, Z.of_nat (length (filter (λ y, y = x) (x :: l))))
                  ∈ value_counts (x :: l))
      by (apply elem_of_value_counts; split; [left|done]).
    destruct (value_counts (x :: l)); [by apply elem_of_nil in Hin|done].
  - intros g v Hhead.
    pose proof (StronglySorted_ordenar_desc
                  ((λ d, (d, Z.of_nat (length (filter (λ x, x = d) generos))))
                     <$> remove_dups generos)) as Hs.
    fold (value_counts generos) in Hs.
    assert (Hgv : (g, v) ∈ value_counts generos)
      by (by apply head_Some_elem_of).
    apply elem_of_value_counts in Hgv as [Hg ->]. split; [done|]. split; [done|].
    intros g'. destruct (decide (g' ∈ generos)) as [Hin|Hout].
    + assert (Hg' : (g', Z.of_nat (length (filter (λ x, x = g') generos)))
                    ∈ value_counts generos)
        by (by apply elem_of_value_counts).
      destruct (value_counts generos) as [|y rest]; [done|].
      injection Hhead as ->. apply elem_of_cons in Hg' as [[= -> E]|Hg'].
      * lia.
      * apply StronglySorted_inv in Hs as [_ Hall].
        apply (proj1 (Forall_forall _ _) Hall) in Hg'. exact Hg'.
    + rewrite length_filter_eq_0 by done. lia.
Qed.

Lemma genero_mas_visto_es_maximo_witness :
  "Drama" ∈ ["Drama"; "Comedy"; "Drama"] ∧
  2 = Z.of_nat (length (filter (λ x, x = "Drama") ["Drama"; "Comedy"; "Drama"])) ∧
  ∀ g', Z.of_nat (length (filter (λ x, x = g') ["Drama"; "Comedy"; "Drama"])) ≤ 2.
Proof.
  apply (proj2 (genero_mas_visto_es_maximo ["Drama"; "Comedy"; "Drama"]) "Drama" 2).
  vm_compute. reflexivity.
Defined.

(** X23. The data of the pie chart of genres keep the total: the counts of
    [datos_grafico], the genres after the tenth gathered under [Otros], add
    up to the number of records, as the counts of [conteo_generos] do; there
    are at most eleven entries, and up to ten genres nothing is grouped. *)
Theorem datos_grafico_conserva_el_total (generos : list string) :
  let conteo := AnalisisGeneros.conteo_generos generos in
  let datos := AnalisisGeneros.datos_grafico conteo in
  suma conteo.*2 = Z.of_nat (length generos) ∧
  suma datos.*2 = Z.of_nat (length generos) ∧
  length conteo = length (remove_dups generos) ∧
  length datos = (if decide (10 < length conteo)%nat then 11 else length conteo)%nat ∧
  take 10 datos = take 10 conteo.
Proof.
  cbn zeta. unfold AnalisisGeneros.conteo_generos.
  pose proof (suma_value_counts generos) as Hsum.
  split; [done|]. unfold AnalisisGeneros.datos_grafico.
  split_and!.
  - destruct (decide _); [|done].
    rewrite fmap_app, suma_app. csimpl. rewrite Z.add_0_r, <- suma_app.
    by rewrite <- fmap_app, take_drop.
  - rewrite <- (length_fmap fst). apply Permutation_length, value_counts_claves.
  - destruct (decide _) as [Hgt|]; [|done].
    rewrite length_app, length_take. cbn [length]. lia.
  - destruct (decide _) as [Hgt|]; [|done].
    rewrite take_app_le by (rewrite length_take; lia).
    apply take_take.
Qed.

(** The percentiles and the bins of a successful analysis. *)
Lemma analisis_completo_bins (df_clean : list (string * Q))
    (analisis : list AnalisisRecurrencia.Fila) :
  AnalisisRecurrencia.analisis_completo df_clean = inr analisis →
  ∃ p33 p66 : Q,
    quantile (AnalisisRecurrencia.SCREENTIME_TOTAL <$> analisis) (33 # 100)
    = Some p33 ∧
    quantile (AnalisisRecurrencia.SCREENTIME_TOTAL <$> analisis) (66 # 100)
    = Some p66 ∧
    validar_bins [Finito 0; Finito p33; Finito p66; Infinito] = None ∧
    ∀ f, f ∈ analisis →
      AnalisisRecurrencia.CATEGORIA_SCREENTIME f
      = intervalo true [Finito 0; Finito p33; Finito p66; Infinito]
          AnalisisRecurrencia.labels_screentime
          (AnalisisRecurrencia.SCREENTIME_TOTAL f).
Proof.
  unfold AnalisisRecurrencia.analisis_completo. cbn zeta.
  destruct (decide _) as [|_]; [done|].
  rewrite pd_cut_frecuencia.
  destruct (quantile _ (33 # 100)) as [p33|] eqn:H33; [|done].
  destruct (quantile _ (66 # 100)) as [p66|] eqn:H66; [|done].
  unfold pd_cut.
  destruct (validar_bins _) as [e|] eqn:Hv; [done|].
  intros [= <-]. exists p33, p66.
  rewrite <- !list_fmap_compose. split_and!; [exact H33|exact H66|done|].
  intros f Hf. apply list_elem_of_fmap in Hf as (r & -> & _). done.
Qed.

(** X24. The class of total screentime of a successful recurrence
    analysis: the percentiles 0.33 and 0.66 of the totals satisfy
    0 < p33 < p66, a customer whose total is not positive gets no class, and
    the others are classed by the two percentiles, upper ends included. *)
Theorem categoria_de_screentime
    (df_clean : list (string * Q)) (analisis : list AnalisisRecurrencia.Fila) :
  AnalisisRecurrencia.analisis_completo df_clean = inr analisis →
  ∃ p33 p66 : Q,
    quantile (AnalisisRecurrencia.SCREENTIME_TOTAL <$> analisis) (33 # 100)
    = Some p33 ∧
    quantile (AnalisisRecurrencia.SCREENTIME_TOTAL <$> analisis) (66 # 100)
    = Some p66 ∧
    (0 < p33)%Q ∧ (p33 < p66)%Q ∧
    ∀ f, f ∈ analisis →
      let t := AnalisisRecurrencia.SCREENTIME_TOTAL f in
      let c := AnalisisRecurrencia.CATEGORIA_SCREENTIME f in
      ((t <= 0)%Q → c = None) ∧
      ((0 < t)%Q → (t <= p33)%Q → c = Some "Bajo Consumo") ∧
      ((p33 < t)%Q → (t <= p66)%Q → c = Some "Medio Consumo") ∧
      ((p66 < t)%Q → c = Some "Alto Consumo").
Proof.
  intros Han.
  destruct (analisis_completo_bins _ _ Han) as (p33 & p66 & H33 & H66 & Hv & Hc).
  exists p33, p66. split; [done|]. split; [done|].
  assert (Hord : (0 < p33)%Q ∧ (p33 < p66)%Q).
  { revert Hv. unfold validar_bins. cbn [no_decreciente creciente length].
    destruct (negb _); [done|]. cbn [Nat.eqb negb]. rewrite andb_true_r.
    destruct (borde_lt (Finito 0) (Finito p33)) eqn:E1; [|done].
    destruct (borde_lt (Finito p33) (Finito p66)) eqn:E2; [|done].
    intros _. unfold borde_lt, borde_le in E1, E2.
    apply negb_true_iff in E1, E2. split.
    - apply Qnot_le_lt. intros H. apply Qle_bool_iff in H. congruence.
    - apply Qnot_le_lt. intros H. apply Qle_bool_iff in H. congruence. }
  destruct Hord as [H0 H1]. split; [done|]. split; [done|].
  intros f Hf. cbn zeta. rewrite (Hc f Hf).
  set (t := AnalisisRecurrencia.SCREENTIME_TOTAL f).
  unfold AnalisisRecurrencia.labels_screentime. cbn [intervalo].
  unfold borde_lt, borde_le.
  assert (Hb : ∀ x y, Qle_bool x y = false ↔ (y < x)%Q).
  { intros x y. split.
    - intros E. apply Qnot_le_lt. intros H. apply Qle_bool_iff in H. congruence.
    - intros H. destruct (Qle_bool x y) eqn:E; [|done].
      apply Qle_bool_iff in E. by apply Qlt_not_le in H. }
  split_and!.
  - intros Ht.
    assert (E0 : Qle_bool t 0 = true) by (by apply Qle_bool_iff).
    rewrite E0. cbn [negb andb].
    assert (E1 : Qle_bool t p33 = true) by (apply Qle_bool_iff; lra).
    rewrite E1. cbn [negb andb].
    assert (E2 : Qle_bool t p66 = true) by (apply Qle_bool_iff; lra).
    rewrite E2. done.
  - intros Ht0 Ht1.
    assert (E0 : Qle_bool t 0 = false) by (by apply Hb).
    assert (E1 : Qle_bool t p33 = true) by (by apply Qle_bool_iff).
    rewrite E0, E1. done.
  - intros Ht0 Ht1.
    assert (E0 : Qle_bool t 0 = false) by (apply Hb; lra).
    assert (E1 : Qle_bool t p33 = false) by (by apply Hb).
    assert (E2 : Qle_bool t p66 = true) by (by apply Qle_bool_iff).
    rewrite E0, E1, E2. done.
  - intros Ht.
    assert (E0 : Qle_bool t 0 = false) by (apply Hb; lra).
    assert (E1 : Qle_bool t p33 = false) by (apply Hb; lra).
    assert (E2 : Qle_bool t p66 = false) by (by apply Hb).
    rewrite E0, E1, E2. done.
Qed.

Lemma categoria_de_screentime_witness :
  ∃ p33 p66 : Q,
    quantile (AnalisisRecurrencia.SCREENTIME_TOTAL <$> analisis_ejemplo) (33 # 100)
    = Some p33 ∧
    quantile (AnalisisRecurrencia.SCREENTIME_TOTAL <$> analisis_ejemplo) (66 # 100)
    = Some p66 ∧
    (0 < p33)%Q ∧ (p33 < p66)%Q ∧
    ∀ f, f ∈ analisis_ejemplo →
      let t := AnalisisRecurrencia.SCREENTIME_TOTAL f in
      let c := AnalisisRecurrencia.CATEGORIA_SCREENTIME f in
      ((t <= 0)%Q → c = None) ∧
      ((0 < t)%Q → (t <= p33)%Q → c = Some "Bajo Consumo") ∧
      ((p33 < t)%Q → (t <= p66)%Q → c = Some "Medio Consumo") ∧
      ((p66 < t)%Q → c = Some "Alto Consumo").
Proof.
  apply (categoria_de_screentime ejemplo_recurrencia analisis_ejemplo).
  vm_compute. reflexivity.
Defined.
